(** * next-lessons: route handlers, middleware and auth helpers

    A shallow embedding of the server-side code of the repository:
    - [lib/auth/jwt.ts] and [lib/auth/auth.ts]  (token issuance and login),
    - [app/middleware.ts]                       (route gating),
    - [app/api/posts/route.ts]                  (CRUD over an in-memory list),
    - [app/optimistic/page.tsx]                 (simulated server call),
    - [lib/cache/posts.ts], [app/cache/*]       (tagged cache and its actions).

    Conventions.  A JavaScript string is a [string] (one character per code
    unit).  Integer-valued JavaScript numbers are [Z].  Module-level [let]
    bindings are threaded explicitly: a handler takes the current store and
    returns the response together with the new store.  Values read from the
    environment ([Date.now()], [Math.random()]) are explicit arguments.
    Output to the console and simulated delays have no part in any result
    and are left out. *)

From Stdlib Require Import ZArith QArith String Ascii.
From stdpp Require Import base decidable option list strings gmap.

(** ** Exceptions

    [throw] and [try]/[catch] are modelled with a small error monad; [E] is
    the type of what is thrown. *)

Inductive Except (E A : Type) : Type :=
| Return (a : A)
| Throw (e : E).
Arguments Return {E A} a.
Arguments Throw {E A} e.

Definition bindE {E A B} (m : Except E A) (k : A -> Except E B)
    : Except E B :=
  match m with
  | Return a => k a
  | Throw e => Throw e
  end.

Definition catchE {E A} (m : Except E A) (handler : E -> A) : A :=
  match m with
  | Return a => a
  | Throw e => handler e
  end.

Notation "x <-! m ;; k" := (bindE m (fun x => k))
  (at level 100, m at next level, right associativity).

(** An [Error] object, identified by its message. *)
Record Error := mkError { error_message : string }.

(** ** lib/auth/jwt.ts *)

Module Jwt.

Definition secretKey : string :=
  "your-very-secure-secret-key-at-least-32-characters-long".

Record User := mkUser {
  id : Z;
  username : string;
  password : string;
  role : string;
}.

Definition mockUsers : list User :=
  [ mkUser 1 "demo" "password123" "user";
    mkUser 2 "admin" "admin123" "admin" ].

Module JWT_CONFIG.
Definition issuer : string := "next-methods-demo".
Definition audience : string := "next-methods-client".
Definition expiresIn : string := "1h".
(** [secs('1h')], the number of seconds [setExpirationTime] adds to
    the clock. *)
Definition expiresIn_secs : Z := 3600.
End JWT_CONFIG.

(** *** The signing library, as far as this file uses it *)

(** A JavaScript number, as far as its passage through JSON depends on it:
    an integer, negative zero, or one of the three values that are not
    finite.  (A finite number that is not an integer passes through JSON
    unchanged, as an integer does.) *)
Inductive number :=
| Int (z : Z)
| NegZero
| NaN
| Infinity
| NegInfinity.

(** A number read back from JSON: [null], or a finite number. *)
Inductive JSONNumber :=
| JSONNull
| JSONInt (z : Z).

(** [JSON.parse(JSON.stringify(n))]: the claims are written as JSON when
    the token is signed and read back when it is verified.  A number that
    is not finite is written [null], and negative zero is written [0]. *)
Definition through_JSON (n : number) : JSONNumber :=
  match n with
  | Int z => JSONInt z
  | NegZero => JSONInt 0
  | NaN | Infinity | NegInfinity => JSONNull
  end.

(** A claims set as the token carries it: the three private claims
    written by [generateToken] and the registered claims the library
    writes and checks.  A claim that is absent from the JSON object is
    [None]. *)
Record JWTPayload := mkPayload {
  claim_userId : option JSONNumber;
  claim_username : option string;
  claim_role : option string;
  iat : option Z;
  iss : option string;
  aud : option string;
  exp : option Z;
  nbf : option Z;
}.

(** The HMAC tag is kept symbolic: the tag of a protected header and a
    claims set under a key.  Checking a tag is recomputing it and
    comparing. *)
Record Signature := Mac {
  mac_key : string;
  mac_alg : string;
  mac_payload : JWTPayload;
}.

Record JWS := mkJWS {
  alg : string;
  payload : JWTPayload;
  signature : Signature;
}.

(** What [verifyToken] can be handed: a well-formed compact
    serialisation, or any other string. *)
Inductive Token :=
| Compact (jws : JWS)
| Malformed (raw : string).

#[global] Instance JSONNumber_eq_dec : EqDecision JSONNumber.
Proof. solve_decision. Defined.
#[global] Instance JWTPayload_eq_dec : EqDecision JWTPayload.
Proof. solve_decision. Defined.
#[global] Instance Signature_eq_dec : EqDecision Signature.
Proof. solve_decision. Defined.
#[global] Instance JWS_eq_dec : EqDecision JWS.
Proof. solve_decision. Defined.
#[global] Instance Token_eq_dec : EqDecision Token.
Proof. solve_decision. Defined.

Inductive JOSEError :=
| JWSInvalid
| JOSENotSupported
| JWSSignatureVerificationFailed
| JWTClaimValidationFailed (claim : string)
| JWTExpired.

Definition hmac_alg (a : string) : bool :=
  bool_decide (a = "HS256") || bool_decide (a = "HS384")
  || bool_decide (a = "HS512").

(** [new SignJWT(claims).setProtectedHeader({alg}).setIssuedAt()
    .setIssuer(i).setAudience(a).setExpirationTime(e).sign(key)] at clock
    reading [now] (seconds since the epoch), for a symmetric key: signing
    is refused for an algorithm that is not an HMAC. *)
Definition SignJWT (now : Z) (userId : number) (username role : string)
    (alg issuer audience : string) (lifetime : Z) (key : string)
    : Except JOSEError Token :=
  let p := {| claim_userId := Some (through_JSON userId);
              claim_username := Some username;
              claim_role := Some role;
              iat := Some now;
              iss := Some issuer;
              aud := Some audience;
              exp := Some (now + lifetime)%Z;
              nbf := None |} in
  if hmac_alg alg
  then Return (Compact {| alg := alg; payload := p;
                          signature := Mac key alg p |})
  else Throw JOSENotSupported.

(** [jwtVerify(token, key, {issuer, audience})] at clock reading [now],
    for a symmetric key: the tag is checked first, then the claims. *)
Definition jwtVerify (now : Z) (token : Token) (key : string)
    (issuer audience : string) : JOSEError + JWTPayload :=
  match token with
  | Malformed _ => inl JWSInvalid
  | Compact jws =>
    if negb (hmac_alg (alg jws)) then inl JOSENotSupported
    else if negb (bool_decide
                    (signature jws = Mac key (alg jws) (payload jws)))
    then inl JWSSignatureVerificationFailed
    else
      let p := payload jws in
      if negb (bool_decide (iss p = Some issuer))
      then inl (JWTClaimValidationFailed "iss")
      else if negb (bool_decide (aud p = Some audience))
      then inl (JWTClaimValidationFailed "aud")
      else if match nbf p with
              | Some t => bool_decide (now < t)%Z
              | None => false
              end
      then inl (JWTClaimValidationFailed "nbf")
      else if match exp p with
              | Some t => bool_decide (t <= now)%Z
              | None => false
              end
      then inl JWTExpired
      else inr p
  end.

(** *** Responses

    A response carries a status, a list of headers and a JSON body of type
    [B].  A header value built from a template string keeps the token it
    embeds symbolic. *)

Inductive Frag :=
| Lit (s : string)
| Tok (t : Token).

Record Response (B : Type) := mkResponse {
  status : Z;
  headers : list (string * list Frag);
  json : B;
}.
Arguments mkResponse {B} _ _ _.
Arguments status {B} _.
Arguments headers {B} _.
Arguments json {B} _.

(** [NextResponse.json(body, { status })]; the status defaults to 200. *)
Definition NextResponse_json {B} (body : B) (status : Z) : Response B :=
  {| status := status;
     headers := [("content-type", [Lit "application/json"])];
     json := body |}.

(** [response.headers.append(name, value)] *)
Definition headers_append {B} (response : Response B)
    (name : string) (value : list Frag) : Response B :=
  {| status := status response;
     headers := headers response ++ [(name, value)];
     json := json response |}.

(** *** The functions of the file *)

Definition generateToken (now : Z) (userId : number)
    (username role : string)
    : Except Error Token :=
  match SignJWT now userId username role "HS256"
          JWT_CONFIG.issuer JWT_CONFIG.audience
          JWT_CONFIG.expiresIn_secs secretKey with
  | Return token => Return token
  | Throw _ => Throw (mkError "Failed to generate authentication token")
  end.

Definition verifyToken (now : Z) (token : Token)
    : Except Error JWTPayload :=
  match jwtVerify now token secretKey
          JWT_CONFIG.issuer JWT_CONFIG.audience with
  | inr payload => Return payload
  | inl _ => Throw (mkError "Invalid or expired authentication token")
  end.

Definition findUser (username password : string) : option User :=
  List.find
    (fun user => bool_decide (Jwt.username user = username)
                 && bool_decide (Jwt.password user = password))
    mockUsers.

(** [response.headers.has(name)] *)
Definition has_header {B} (name : string) (r : Response B) : Prop :=
  exists value, (name, value) ∈ headers r.

(** The pair is the name and password of an entry of [mockUsers]. *)
Definition credentials_match (username password : string) : Prop :=
  exists user, user ∈ mockUsers
               /\ Jwt.username user = username
               /\ Jwt.password user = password.

Definition setAuthCookie {B} (response : Response B) (token : Token)
    : Response B :=
  headers_append response "Set-Cookie"
    [Lit "auth-token="; Tok token;
     Lit "; Path=/; HttpOnly; SameSite=Lax; Max-Age=3600"].

Definition clearAuthCookie {B} (response : Response B) : Response B :=
  headers_append response "Set-Cookie"
    [Lit "auth-token=; Path=/; HttpOnly; SameSite=Lax; Max-Age=0"].

End Jwt.

(** ** lib/auth/auth.ts *)

Module Auth.

Record UserInfo := mkUserInfo {
  id : Z;
  username : string;
  role : string;
}.

(** The JSON bodies [authenticate] and [logout] answer with. *)
Inductive AuthBody :=
| AuthSuccess (message : string) (user : option UserInfo)
| AuthFailure (error : string).

Definition success (b : AuthBody) : bool :=
  match b with
  | AuthSuccess _ _ => true
  | AuthFailure _ => false
  end.

Definition authenticate (now : Z) (username password : string)
    : Jwt.Response AuthBody :=
  catchE
    (user <-! match Jwt.findUser username password with
              | Some u => Return u
              | None => Throw (mkError "Invalid username or password")
              end ;;
     token <-! Jwt.generateToken now
                 (Jwt.Int (Jwt.id user)) (Jwt.username user)
                 (Jwt.role user) ;;
     let response :=
       Jwt.NextResponse_json
         (AuthSuccess "Authentication successful"
            (Some {| id := Jwt.id user;
                     username := Jwt.username user;
                     role := Jwt.role user |}))
         200 in
     Return (Jwt.setAuthCookie response token))
    (fun error =>
       Jwt.NextResponse_json (AuthFailure (error_message error)) 401).

Definition logout : Jwt.Response AuthBody :=
  Jwt.clearAuthCookie
    (Jwt.NextResponse_json (AuthSuccess "Logout successful" None) 200).

End Auth.

(** ** app/middleware.ts *)

Module Middleware.

(** A parsed URL: origin, path and query. *)
Record URL := mkURL {
  origin : string;
  pathname : string;
  searchParams : list (string * string);
}.

(** [new URL(path, base)] for an absolute path: the origin of [base], the
    given path, an empty query. *)
Definition URL_new (path : string) (base : URL) : URL :=
  {| origin := origin base; pathname := path; searchParams := [] |}.

(** [URLSearchParams.prototype.set]: the first pair named [name] takes the
    value, later ones are dropped; without such a pair one is appended. *)
Fixpoint searchParams_set (params : list (string * string))
    (name value : string) : list (string * string) :=
  match params with
  | [] => [(name, value)]
  | (k, v) :: rest =>
      if bool_decide (k = name)
      then (name, value)
             :: List.filter (fun kv => negb (bool_decide (fst kv = name))) rest
      else (k, v) :: searchParams_set rest name value
  end.

Definition URL_set (u : URL) (name value : string) : URL :=
  {| origin := origin u;
     pathname := pathname u;
     searchParams := searchParams_set (searchParams u) name value |}.

(** A request: [request.nextUrl], [request.url] (parsed) and the cookie
    jar, a map from cookie names to values. *)
Record NextRequest := mkRequest {
  nextUrl : URL;
  url : URL;
  cookies : gmap string string;
}.

Inductive NextResponse :=
| redirect (target : URL)
| next.

(** [!!value] for [string | undefined] *)
Definition truthy (value : option string) : bool :=
  match value with
  | Some s => negb (bool_decide (s = ""))
  | None => false
  end.

Definition startsWith (s p : string) : bool := String.prefix p s.

Definition middleware (request : NextRequest) : NextResponse :=
  let pathname := pathname (nextUrl request) in
  let isProtectedRoute :=
    startsWith pathname "/dashboard"
    || startsWith pathname "/auth/protected" in
  let authToken := cookies request !! "auth-token" in
  let isAuthenticated :=
    truthy authToken || bool_decide (pathname = "/auth/login") in
  if isProtectedRoute && negb isAuthenticated then
    let loginUrl := URL_new "/auth/login" (url request) in
    redirect (URL_set loginUrl "redirect" pathname)
  else if bool_decide (pathname = "/auth/login") && truthy authToken then
    redirect (URL_new "/dashboard" (url request))
  else next.

(** A route the middleware protects. *)
Definition protected (pathname : string) : Prop :=
  startsWith pathname "/dashboard" = true
  \/ startsWith pathname "/auth/protected" = true.

(** The redirect to the login page that carries the requested path. *)
Definition toLogin (request : NextRequest) : NextResponse :=
  redirect {| origin := origin (url request);
              pathname := "/auth/login";
              searchParams :=
                [("redirect", pathname (nextUrl request))] |}.

End Middleware.

(** ** app/api/posts/route.ts *)

Module Posts.

Record Post := mkPost {
  id : Z;
  title : string;
  content : string;
}.

#[global] Instance Post_eq_dec : EqDecision Post.
Proof. solve_decision. Defined.

(** The initial value of the module-level [mockPosts]. *)
Definition mockPosts : list Post :=
  [ mkPost 1 "First Post" "This is the first post content";
    mkPost 2 "Second Post" "This is the second post content";
    mkPost 3 "Third Post" "This is the third post content" ].

(** *** Request bodies and the schema library

    A parsed JSON value; an object is a finite map from keys to values. *)
#[local] Unset Elimination Schemes.
Inductive JSON :=
| JNull
| JBool (b : bool)
| JNumber (n : Z)
| JString (s : string)
| JArray (items : list JSON)
| JObject (fields : gmap string JSON).
#[local] Set Elimination Schemes.

(** An issue reported by the schema library.  The message text is decided
    by the library from the code and the bound, so the code stands for
    it. *)
Inductive ZodIssueCode :=
| invalid_type
| too_small (minimum : nat)
| too_big (maximum : nat).

Record ZodIssue := mkIssue {
  code : ZodIssueCode;
  path : list string;
}.

(** What a handler body can throw: a [ZodError] from [parse], or anything
    else (here, the [SyntaxError] of [request.json()]). *)
Inductive Thrown :=
| ZodError (issues : list ZodIssue)
| SyntaxError.

(** [z.string().min(lo).max(hi)] applied to the property found at [path];
    [None] is [undefined].  Both length checks run on a string. *)
Definition z_string_min_max (lo hi : nat) (path : list string)
    (value : option JSON) : Except (list ZodIssue) string :=
  match value with
  | Some (JString s) =>
      match (if Nat.ltb (String.length s) lo
             then [mkIssue (too_small lo) path] else [])
            ++ (if Nat.ltb hi (String.length s)
                then [mkIssue (too_big hi) path] else []) with
      | [] => Return s
      | issues => Throw issues
      end
  | _ => Throw [mkIssue invalid_type path]
  end.

Definition issues_of {A} (r : Except (list ZodIssue) A) : list ZodIssue :=
  match r with
  | Return _ => []
  | Throw issues => issues
  end.

(** The validated data: the two keys of the schema, nothing else. *)
Record PostInput := mkInput {
  input_title : string;
  input_content : string;
}.

(** [postSchema.parse(body)] with
    [postSchema = z.object({ title: z.string().min(3).max(100),
                             content: z.string().min(10).max(1000) })].
    The issues of all keys are collected, in the order of the schema. *)
Definition postSchema_parse (body : JSON) : Except Thrown PostInput :=
  match body with
  | JObject fields =>
      match z_string_min_max 3 100 ["title"] (fields !! "title"),
            z_string_min_max 10 1000 ["content"] (fields !! "content") with
      | Return t, Return c => Return (mkInput t c)
      | rt, rc => Throw (ZodError (issues_of rt ++ issues_of rc))
      end
  | _ => Throw (ZodError [mkIssue invalid_type []])
  end.

(** *** Requests and responses *)

(** A request: the query of [request.url] and the outcome of
    [request.json()], [None] when the body is not JSON. *)
Record Request := mkRequest {
  searchParams : list (string * string);
  body : option JSON;
}.

(** [searchParams.get(name)]: the value of the first pair so named. *)
Definition searchParams_get (params : list (string * string))
    (name : string) : option string :=
  snd <$> List.find (fun kv => bool_decide (fst kv = name)) params.

Definition request_json (request : Request) : Except Thrown JSON :=
  match body request with
  | Some b => Return b
  | None => Throw SyntaxError
  end.

Record FieldError := mkFieldError {
  field : string;
  message : ZodIssueCode;
}.

Inductive Details :=
| NoDetails
| Fields (errors : list FieldError)
| Issues (issues : list ZodIssue).

Inductive Data :=
| OnePost (post : Post)
| AllPosts (posts : list Post).

(** The JSON bodies of the handlers:
    [{ success: true, data, message }] and
    [{ success: false, error, details? }]. *)
Inductive Body :=
| Success (data : Data) (message : string)
| Failure (error : string) (details : Details).

Definition success (b : Body) : bool :=
  match b with
  | Success _ _ => true
  | Failure _ _ => false
  end.

Record NextResponse := mkResponse {
  status : Z;
  json : Body;
}.

(** [issue.path.join('.')] *)
Fixpoint join (sep : string) (parts : list string) : string :=
  match parts with
  | [] => ""
  | [p] => p
  | p :: rest => p +:+ sep +:+ join sep rest
  end.

(** *** The handlers

    Each handler takes the current [mockPosts] and returns its response
    with the new [mockPosts]. *)

Definition GET (mockPosts : list Post) : NextResponse * list Post :=
  (mkResponse 200 (Success (AllPosts mockPosts) "Posts fetched successfully"),
   mockPosts).

Definition POST (request : Request) (mockPosts : list Post)
    : NextResponse * list Post :=
  catchE
    (body <-! request_json request ;;
     validatedData <-! postSchema_parse body ;;
     let newPost :=
       {| id := (Z.of_nat (length mockPosts) + 1)%Z;
          title := input_title validatedData;
          content := input_content validatedData |} in
     Return (mkResponse 201
               (Success (OnePost newPost) "Post created successfully"),
             mockPosts ++ [newPost]))
    (fun error =>
       match error with
       | ZodError issues =>
           (mkResponse 400
              (Failure "Validation failed"
                 (Fields
                    (List.map
                       (fun issue =>
                          {| field := join "." (path issue);
                             message := code issue |})
                       issues))),
            mockPosts)
       | _ =>
           (mkResponse 500 (Failure "Failed to create post" NoDetails),
            mockPosts)
       end).

Section WithNumber.

(** [Number(id)] is taken as given: [Some z] when the numeric value of
    the string is the integer [z], [None] when it is [NaN], infinite or not
    an integer (no stored id is strictly equal to such a number). *)
Variable Number : string -> option Z.

(** [mockPosts.findIndex(post => post.id === Number(id))]: the index and
    the element of the first match, [None] for [-1]. *)
Definition findIndex (id : string) (mockPosts : list Post)
    : option (nat * Post) :=
  list_find (fun post => Number id = Some (Posts.id post)) mockPosts.

Definition PUT (request : Request) (mockPosts : list Post)
    : NextResponse * list Post :=
  catchE
    (match searchParams_get (searchParams request) "id" with
     | None | Some "" =>
         Return (mkResponse 400 (Failure "Post ID is required" NoDetails),
                 mockPosts)
     | Some id =>
         body <-! request_json request ;;
         validatedData <-! postSchema_parse body ;;
         match findIndex id mockPosts with
         | None =>
             Return (mkResponse 404 (Failure "Post not found" NoDetails),
                     mockPosts)
         | Some (postIndex, post) =>
             let updated :=
               {| id := Posts.id post;
                  title := input_title validatedData;
                  content := input_content validatedData |} in
             Return (mkResponse 200
                       (Success (OnePost updated)
                          "Post updated successfully"),
                     <[postIndex := updated]> mockPosts)
         end
     end)
    (fun error =>
       match error with
       | ZodError issues =>
           (mkResponse 400 (Failure "Validation failed" (Issues issues)),
            mockPosts)
       | _ =>
           (mkResponse 500 (Failure "Failed to update post" NoDetails),
            mockPosts)
       end).

(** Nothing in the body of [DELETE] throws, so its [catch] branch (status
    500) is never taken. *)
Definition DELETE (request : Request) (mockPosts : list Post)
    : NextResponse * list Post :=
  match searchParams_get (searchParams request) "id" with
  | None | Some "" =>
      (mkResponse 400 (Failure "Post ID is required" NoDetails), mockPosts)
  | Some id =>
      match findIndex id mockPosts with
      | None =>
          (mkResponse 404 (Failure "Post not found" NoDetails), mockPosts)
      | Some (postIndex, deletedPost) =>
          (mkResponse 200
             (Success (OnePost deletedPost) "Post deleted successfully"),
           delete postIndex mockPosts)
      end
  end.

End WithNumber.

(** The decimal-integer fragment of [Number]: an optional sign followed by
    digits, and the empty string (which is [0]).  Every other string is
    outside the fragment and answered [None], which is not always what
    [Number] gives ('1.0', ' 1' and '0x1' are 1).  The general statements
    take [Number] as a parameter; this fragment only instantiates them at
    plain decimal ids, where it agrees with [Number]. *)
Definition digit (c : ascii) : option Z :=
  let n := Z.of_nat (nat_of_ascii c) in
  if bool_decide (48 <= n <= 57)%Z then Some (n - 48)%Z else None.

Fixpoint digits (acc : Z) (s : string) : option Z :=
  match s with
  | EmptyString => Some acc
  | String c rest =>
      match digit c with
      | Some d => digits (10 * acc + d) rest
      | None => None
      end
  end.

Definition Number_int (s : string) : option Z :=
  match s with
  | EmptyString => Some 0%Z
  | String "-" (String c rest) => Z.opp <$> digits 0 (String c rest)
  | String "+" (String c rest) => digits 0 (String c rest)
  | _ => digits 0 s
  end.

End Posts.

(** ** app/optimistic/page.tsx *)

Module Optimistic.

(** An element of the module-level [mockPosts]. *)
Record StoredPost := mkStored {
  stored_id : Z;
  stored_title : string;
  stored_content : string;
}.

Definition mockPosts : list StoredPost :=
  [ mkStored 1 "Introduction to React"
      "Learn the basics of React components";
    mkStored 2 "Next.js App Router"
      "Understanding the new App Router paradigm";
    mkStored 3 "State Management"
      "Exploring different state management approaches" ].

(** [id: number | string]; the only string ids are the temporary
    [`temp-${Date.now()}`], kept as the clock reading they are made of. *)
Inductive PostId :=
| NumId (n : Z)
| TempId (now : Z).

Record Post := mkPost {
  id : PostId;
  title : string;
  content : string;
  optimistic : option bool;
}.

Definition shown (p : StoredPost) : Post :=
  {| id := NumId (stored_id p);
     title := stored_title p;
     content := stored_content p;
     optimistic := None |}.

Record NewPost := mkNew {
  new_title : string;
  new_content : string;
}.

Record AddResult := mkResult {
  success : bool;
  post : option StoredPost;
  error : option string;
}.

(** [addPost], with the value of [Math.random()] as an argument. *)
Definition addPost (random : Q) (newPost : NewPost)
    (mockPosts : list StoredPost) : AddResult * list StoredPost :=
  if Qlt_le_dec random (2 # 10) then
    ({| success := false; post := None;
        error := Some "Failed to save post. Please try again." |},
     mockPosts)
  else
    let post :=
      {| stored_id := (Z.of_nat (length mockPosts) + 1)%Z;
         stored_title := new_title newPost;
         stored_content := new_content newPost |} in
    ({| success := true; post := Some post; error := None |},
     mockPosts ++ [post]).

(** The component: its [useState] cells, and the optimistic actions that
    [useOptimistic] is holding. *)
Record OptimisticAction := mkAction {
  action_title : string;
  action_content : string;
  tempId : Z;
}.

Record State := mkState {
  form_title : string;
  form_content : string;
  isSubmitting : bool;
  form_error : option string;
  pending : list OptimisticAction;
}.

(** The update function handed to [useOptimistic]. *)
Definition addOptimistic (currentPosts : list Post)
    (newPost : OptimisticAction) : list Post :=
  currentPosts
  ++ [ {| id := TempId (tempId newPost);
          title := action_title newPost;
          content := action_content newPost;
          optimistic := Some true |} ].

(** Modelled from the spec: the hook [useOptimistic(mockPosts, update)] of
    the UI library, which is not part of the repository.  The list it
    returns is the confirmed list with the pending optimistic changes
    applied on top; once a submission has settled its change is no longer
    pending ("a UI state change applied before server confirmation,
    reverted on failure"). *)
Definition optimisticPosts (mockPosts : list StoredPost) (st : State)
    : list Post :=
  fold_left addOptimistic (pending st) (shown <$> mockPosts).

Definition is_space (c : ascii) : bool :=
  let n := nat_of_ascii c in
  (Nat.leb 9 n && Nat.leb n 13) || Nat.eqb n 32 || Nat.eqb n 160.

(** [!s.trim()]: nothing is left of [s] once white space is trimmed. *)
Fixpoint blank (s : string) : bool :=
  match s with
  | EmptyString => true
  | String c rest => is_space c && blank rest
  end.

(** [handleSubmit] up to the [await]: [None] when it returns at once. *)
Definition handleSubmit_begin (now : Z) (st : State) : option State :=
  if blank (form_title st) || blank (form_content st) then None
  else
    Some {| form_title := form_title st;
            form_content := form_content st;
            isSubmitting := true;
            form_error := None;
            pending := pending st
                       ++ [mkAction (form_title st) (form_content st) now] |}.

(** [handleSubmit] from the [await] on: the call settles, the form is
    reset, and the optimistic change of this submission is dropped. *)
Definition handleSubmit_settle (random : Q) (st : State)
    (mockPosts : list StoredPost) : State * list StoredPost :=
  let '(result, mockPosts') :=
    addPost random (mkNew (form_title st) (form_content st)) mockPosts in
  ({| form_title := "";
      form_content := "";
      isSubmitting := false;
      form_error :=
        if success result then form_error st
        else Some (match error result with
                   | None | Some "" => "Failed to add post"
                   | Some e => e
                   end);
      pending := removelast (pending st) |},
   mockPosts').

Definition handleSubmit (now : Z) (random : Q) (st : State)
    (mockPosts : list StoredPost) : State * list StoredPost :=
  match handleSubmit_begin now st with
  | None => (st, mockPosts)
  | Some st' => handleSubmit_settle random st' mockPosts
  end.

End Optimistic.

(** ** lib/cache/posts.ts, app/cache/actions.ts, app/cache/page.tsx *)

Module Cache.

Record Post := mkPost {
  id : Z;
  title : string;
  content : string;
}.

(** *** The framework's cache

    Modelled from the spec: the cache of the host framework, which is not
    part of the repository ("a cache entry is associated with a label;
    invalidating the label invalidates all entries sharing it").  An entry
    holds the value a cached function returned and the labels the function
    attached with [cacheTag] while it ran. *)
Inductive Freshness :=
| Fresh
| Stale
| Expired.

Record Entry (V : Type) := mkEntry {
  tags : list string;
  value : V;
  freshness : Freshness;
}.
Arguments mkEntry {V} _ _ _.
Arguments tags {V} _.
Arguments value {V} _.
Arguments freshness {V} _.

Definition invalidated {V} (e : Entry V) : Prop := freshness e <> Fresh.

(** Modelled from the spec: invalidating [tag] touches every entry that
    carries it and no other entry. *)
Definition invalidate {V} (how : Freshness) (tag : string)
    (cache : gmap string (Entry V)) : gmap string (Entry V) :=
  (fun e =>
     if bool_decide (tag ∈ tags e)
     then {| tags := tags e; value := value e; freshness := how |}
     else e) <$> cache.

(** Modelled from the spec: [updateTag(tag)] expires the entries at once;
    [revalidateTag(tag, 'max')] marks them stale. *)
Definition updateTag {V} (tag : string) (cache : gmap string (Entry V))
    : gmap string (Entry V) :=
  invalidate Expired tag cache.

Definition revalidateTag {V} (tag profile : string)
    (cache : gmap string (Entry V)) : gmap string (Entry V) :=
  invalidate Stale tag cache.

(** What running the body of a ['use cache'] function gives: the labels
    attached by [cacheTag], and the value returned. *)
Record Run (V : Type) := mkRun {
  run_tags : list string;
  run_value : V;
}.
Arguments mkRun {V} _ _.
Arguments run_tags {V} _.
Arguments run_value {V} _.

(** Modelled from the spec: a call of a ['use cache'] function stored
    under [key].  A fresh entry answers the call; otherwise the body runs
    and its result is stored with its labels. *)
Definition use_cache {V} (key : string) (body : Run V)
    (cache : gmap string (Entry V)) : V * gmap string (Entry V) :=
  match cache !! key with
  | Some e =>
      match freshness e with
      | Fresh => (value e, cache)
      | _ =>
          (run_value body,
           <[key := mkEntry (run_tags body) (run_value body) Fresh]> cache)
      end
  | None =>
      (run_value body,
       <[key := mkEntry (run_tags body) (run_value body) Fresh]> cache)
  end.

(** *** lib/cache/posts.ts *)

(** The body of [getCachedPosts]: [cacheTag('posts')], then the list. *)
Definition getCachedPosts_body : Run (list Post) :=
  let posts :=
    [ mkPost 1 "Post A" "Content A";
      mkPost 2 "Post B" "Content B";
      mkPost 3 "Post C" "Content C" ] in
  {| run_tags := ["posts"]; run_value := posts |}.

Definition getCachedPosts (cache : gmap string (Entry (list Post)))
    : list Post * gmap string (Entry (list Post)) :=
  use_cache "getCachedPosts" getCachedPosts_body cache.

(** *** app/cache/actions.ts *)

Definition revalidatePostsImmediately {V} (cache : gmap string (Entry V))
    : gmap string (Entry V) :=
  updateTag "posts" cache.

(** *** app/cache/page.tsx *)

(** A form field is a string or a file. *)
Inductive FormDataEntryValue :=
| FormString (s : string)
| FormFile.

(** [formData.get(name)] *)
Definition FormData_get (formData : list (string * FormDataEntryValue))
    (name : string) : option FormDataEntryValue :=
  snd <$> List.find (fun kv => bool_decide (fst kv = name)) formData.

(** [!value] for a form field *)
Definition missing (value : option FormDataEntryValue) : bool :=
  match value with
  | None | Some (FormString "") => true
  | Some _ => false
  end.

Definition handleAddPost {V} (formData : list (string * FormDataEntryValue))
    (cache : gmap string (Entry V))
    : Except Error unit * gmap string (Entry V) :=
  let title := FormData_get formData "title" in
  let content := FormData_get formData "content" in
  if missing title || missing content then
    (Throw (mkError "Title and content are required"), cache)
  else
    (Return tt, revalidateTag "posts" "max" cache).

(** *** Sequences of calls

    What the page and its actions can do to the cache, in any order. *)
Inductive Call :=
| CallGetCachedPosts
| CallRevalidatePostsImmediately
| CallHandleAddPost (formData : list (string * FormDataEntryValue)).

Definition step (cache : gmap string (Entry (list Post))) (c : Call)
    : gmap string (Entry (list Post)) :=
  match c with
  | CallGetCachedPosts => snd (getCachedPosts cache)
  | CallRevalidatePostsImmediately => revalidatePostsImmediately cache
  | CallHandleAddPost formData => snd (handleAddPost formData cache)
  end.

Definition run (calls : list Call) (cache : gmap string (Entry (list Post)))
    : gmap string (Entry (list Post)) :=
  fold_left step calls cache.

(** [cache'] is [cache] with the entries labelled [tag] invalidated and
    nothing else changed: no entry appears or disappears, every entry keeps
    its labels and its value, and an entry without the label is the same. *)
Definition invalidates_exactly {V} (tag : string)
    (cache cache' : gmap string (Entry V)) : Prop :=
  forall key,
    match cache !! key with
    | None => cache' !! key = None
    | Some e =>
        exists e',
          cache' !! key = Some e'
          /\ tags e' = tags e
          /\ value e' = value e
          /\ (tag ∈ tags e -> invalidated e')
          /\ (tag ∉ tags e -> e' = e)
    end.

(** The entry of [getCachedPosts], whenever there is one, holds the three
    posts under the single label. *)
Definition posts_entry_ok (cache : gmap string (Entry (list Post))) : Prop :=
  forall e,
    cache !! "getCachedPosts" = Some e ->
    tags e = ["posts"] /\ value e = run_value getCachedPosts_body.

End Cache.

(** ** lib/auth/auth.ts, the request side *)

Module AuthRequest.

(** The cookie jar of a request, each value seen as [verifyToken] will see
    it.  The empty string is [Jwt.Malformed ""]. *)
Record NextRequest := mkRequest {
  cookies : gmap string Jwt.Token;
}.

(** [!authToken] for [string | undefined] *)
Definition missing (authToken : option Jwt.Token) : bool :=
  match authToken with
  | None | Some (Jwt.Malformed "") => true
  | Some _ => false
  end.

Record AuthResult := mkResult {
  isAuthenticated : bool;
  user : option Jwt.JWTPayload;
  error : option string;
}.

Definition verifyAuthentication (now : Z) (request : NextRequest)
    : AuthResult :=
  catchE
    (let authToken := cookies request !! "auth-token" in
     token <-! match authToken with
               | Some t =>
                   if missing authToken
                   then Throw (mkError "No authentication token provided")
                   else Return t
               | None => Throw (mkError "No authentication token provided")
               end ;;
     userData <-! Jwt.verifyToken now token ;;
     Return {| isAuthenticated := true;
               user := Some userData;
               error := None |})
    (fun e =>
       {| isAuthenticated := false;
          user := None;
          error := Some (error_message e) |}).

Definition checkAuth (now : Z) (request : NextRequest) : bool :=
  isAuthenticated (verifyAuthentication now request).

Definition getCurrentUser (now : Z) (request : NextRequest)
    : option Jwt.JWTPayload :=
  let authResult := verifyAuthentication now request in
  if isAuthenticated authResult then user authResult else None.

End AuthRequest.

(** ** app/api/auth/login/route.ts *)

Module LoginRoute.

(** [!value] for a JSON value or [undefined] *)
Definition falsy (value : option Posts.JSON) : bool :=
  match value with
  | None => true
  | Some Posts.JNull => true
  | Some (Posts.JBool b) => negb b
  | Some (Posts.JNumber n) => bool_decide (n = 0%Z)
  | Some (Posts.JString s) => bool_decide (s = "")
  | Some _ => false
  end.

(** [const { username, password } = body]: destructuring [null] throws,
    and anything that is not an object has neither property. *)
Definition destructure (body : Posts.JSON)
    : Except Error (option Posts.JSON * option Posts.JSON) :=
  match body with
  | Posts.JNull =>
      Throw (mkError "TypeError")
  | Posts.JObject fields =>
      Return (fields !! "username", fields !! "password")
  | _ => Return (None, None)
  end.

(** The handler.  [authenticate] compares its arguments with [===], so a
    value that is not a string matches no stored name or password and is
    answered like a pair of strings that matches nothing. *)
Definition POST (now : Z) (body : option Posts.JSON)
    : Jwt.Response Auth.AuthBody :=
  catchE
    (json <-! match body with
              | Some b => Return b
              | None => Throw (mkError "SyntaxError")
              end ;;
     fields <-! destructure json ;;
     let '(username, password) := fields in
     if falsy username || falsy password then
       Return (Jwt.NextResponse_json
                 (Auth.AuthFailure "Username and password are required") 400)
     else
       match username, password with
       | Some (Posts.JString u), Some (Posts.JString p) =>
           Return (Auth.authenticate now u p)
       | _, _ =>
           Return (Jwt.NextResponse_json
                     (Auth.AuthFailure "Invalid username or password") 401)
       end)
    (fun _ =>
       Jwt.NextResponse_json (Auth.AuthFailure "Login failed") 500).

End LoginRoute.

(** ** app/dashboard/page.tsx *)

Module Dashboard.

(** What the server component returns: a redirect, or the page rendered
    for a user. *)
Inductive Page :=
| redirect (path : string)
| render (user : Jwt.JWTPayload).

Definition DashboardPage (now : Z) (cookies : gmap string Jwt.Token)
    : Page :=
  let token := cookies !! "auth-token" in
  match token with
  | Some t =>
      if AuthRequest.missing token then redirect "/auth/login"
      else
        match Jwt.verifyToken now t with
        | Return user => render user
        | Throw _ => redirect "/auth/login"
        end
  | None => redirect "/auth/login"
  end.

End Dashboard.

(** ** Following a redirect of the middleware *)

Module MiddlewareFlow.


End MiddlewareFlow.

(** ** Sequences of calls to app/api/posts/route.ts *)

Module PostsCalls.

Inductive Call :=
| CallGET
| CallPOST (request : Posts.Request)
| CallPUT (request : Posts.Request)
| CallDELETE (request : Posts.Request).

Section WithNumber.
Variable Number : string -> option Z.

Definition handle (c : Call) (mockPosts : list Posts.Post)
    : Posts.NextResponse * list Posts.Post :=
  match c with
  | CallGET => Posts.GET mockPosts
  | CallPOST request => Posts.POST request mockPosts
  | CallPUT request => Posts.PUT Number request mockPosts
  | CallDELETE request => Posts.DELETE Number request mockPosts
  end.

(** The stored list after the calls, made one after the other. *)
Definition run (calls : list Call) (mockPosts : list Posts.Post)
    : list Posts.Post :=
  fold_left (fun posts c => snd (handle c posts)) calls mockPosts.

End WithNumber.

(** A post within the bounds of the schema of the route. *)
Definition within_schema (post : Posts.Post) : Prop :=
  3 <= String.length (Posts.title post) <= 100
  /\ 10 <= String.length (Posts.content post) <= 1000.

End PostsCalls.

(** ** app/transition/action.ts *)

Module Transition.

Record Post := mkPost {
  id : Z;
  title : string;
  content : string;
}.

Definition mockPosts : list Post :=
  [ mkPost 1 "Introduction to React" "Learn the basics of React components";
    mkPost 2 "Next.js App Router" "Understanding the new App Router paradigm";
    mkPost 3 "State Management"
      "Exploring different state management approaches" ].

(** [toLowerCase] on one code unit below 256: the letters A to Z and the
    capital letters of Latin-1 (U+00C0 to U+00DE, without the
    multiplication sign U+00D7) move up by 32. *)
Definition lower (c : ascii) : ascii :=
  let n := nat_of_ascii c in
  if (Nat.leb 65 n && Nat.leb n 90)
     || (Nat.leb 192 n && Nat.leb n 214)
     || (Nat.leb 216 n && Nat.leb n 222)
  then ascii_of_nat (n + 32)
  else c.

Fixpoint toLowerCase (s : string) : string :=
  match s with
  | EmptyString => EmptyString
  | String c rest => String (lower c) (toLowerCase rest)
  end.

(** [s.includes(t)]: [t] starts at some position of [s]. *)
Fixpoint includes (s t : string) : bool :=
  String.prefix t s
  || match s with
     | EmptyString => false
     | String _ rest => includes rest t
     end.

Definition fetchPostsWithDelay (searchTerm : string) : list Post :=
  List.filter
    (fun post =>
       includes (toLowerCase (title post)) (toLowerCase searchTerm)
       || includes (toLowerCase (content post)) (toLowerCase searchTerm))
    mockPosts.

End Transition.

(** ** lib/validation/schema.ts and the form of app/validation/page.tsx *)

Module Validation.

(** A value of type [unknown], as far as the schemas look at it. *)
#[local] Unset Elimination Schemes.
Inductive Value :=
| VUndefined
| VNull
| VBool (b : bool)
| VNumber (n : Z)
| VString (s : string)
| VFile
| VArray (items : list Value)
| VObject (fields : gmap string Value).
#[local] Set Elimination Schemes.

(** The error thrown by [validateRegistration] and [validatePost]: its
    message is the list of issues rendered by [JSON.stringify], whose text
    is the library's and is not spelled out. *)
Inductive IssueReport := issue_report.

(** [z.string().min(lo).max(hi)] *)
Definition z_string (lo hi : nat) (value : option Value) : option string :=
  match value with
  | Some (VString s) =>
      if Nat.leb lo (String.length s) && Nat.leb (String.length s) hi
      then Some s else None
  | _ => None
  end.

(** [z.array(z.string())]: every element must be a string. *)
Fixpoint z_strings (items : list Value) : option (list string) :=
  match items with
  | [] => Some []
  | VString s :: rest =>
      match z_strings rest with
      | Some l => Some (s :: l)
      | None => None
      end
  | _ :: _ => None
  end.

(** The [tags] key: an array of 1 to 5 strings, each of at most 20
    characters. *)
Definition z_tags (value : option Value) : option (list string) :=
  match value with
  | Some (VArray items) =>
      match z_strings items with
      | Some tags =>
          if Nat.leb 1 (length tags) && Nat.leb (length tags) 5
             && forallb (fun tag => Nat.leb (String.length tag) 20) tags
          then Some tags else None
      | None => None
      end
  | _ => None
  end.

Record PostFormData := mkPostForm {
  post_title : string;
  post_content : string;
  post_tags : list string;
}.

(** [postSchema.parse(data)] of this file; [None] when it throws. *)
Definition postSchema_parse (data : Value) : option PostFormData :=
  match data with
  | VObject fields =>
      match z_string 5 100 (fields !! "title"),
            z_string 10 1000 (fields !! "content"),
            z_tags (fields !! "tags") with
      | Some t, Some c, Some tags => Some (mkPostForm t c tags)
      | _, _, _ => None
      end
  | _ => None
  end.

Definition validatePost (data : Value) : Except IssueReport PostFormData :=
  match postSchema_parse data with
  | Some validated => Return validated
  | None => Throw issue_report
  end.

(** [{ success: true, data }] or [{ success: false, error }] *)
Record ServerResult (D : Type) := mkServerResult {
  success : bool;
  data : option D;
  error : option IssueReport;
}.
Arguments mkServerResult {D} _ _ _.
Arguments success {D} _.
Arguments data {D} _.
Arguments error {D} _.

Definition entry_value (v : Cache.FormDataEntryValue) : Value :=
  match v with
  | Cache.FormString s => VString s
  | Cache.FormFile => VFile
  end.

(** [data.get(name)]: [null] when there is no such entry. *)
Definition get (formData : list (string * Cache.FormDataEntryValue))
    (name : string) : Value :=
  match Cache.FormData_get formData name with
  | Some v => entry_value v
  | None => VNull
  end.

(** [data.getAll(name)] *)
Definition getAll (formData : list (string * Cache.FormDataEntryValue))
    (name : string) : list Value :=
  entry_value ∘ snd
  <$> List.filter (fun kv => bool_decide (fst kv = name)) formData.

Definition validatePostServer
    (formData : list (string * Cache.FormDataEntryValue))
    : ServerResult PostFormData :=
  let rawData :=
    VObject {[ "title" := get formData "title";
               "content" := get formData "content";
               "tags" := VArray (getAll formData "tags") ]} in
  match validatePost rawData with
  | Return validatedData =>
      {| success := true; data := Some validatedData; error := None |}
  | Throw e => {| success := false; data := None; error := Some e |}
  end.

(** *** The registration schema *)

Definition is_upper (c : ascii) : bool :=
  let n := nat_of_ascii c in Nat.leb 65 n && Nat.leb n 90.

Definition is_lower (c : ascii) : bool :=
  let n := nat_of_ascii c in Nat.leb 97 n && Nat.leb n 122.

Definition is_digit (c : ascii) : bool :=
  let n := nat_of_ascii c in Nat.leb 48 n && Nat.leb n 57.

(** [regex.test(s)] for a class of characters: some character of [s] is
    in the class. *)
Definition has (class : ascii -> bool) (s : string) : bool :=
  existsb class (list_ascii_of_string s).

(** [/^[a-zA-Z\s]+$/.test(s)] *)
Definition letters_and_spaces (s : string) : bool :=
  negb (bool_decide (s = ""))
  && forallb (fun c => is_upper c || is_lower c || Optimistic.is_space c)
       (list_ascii_of_string s).

Record RegisterFormData := mkRegister {
  reg_name : string;
  reg_email : string;
  reg_password : string;
  reg_confirmPassword : string;
}.

Section WithEmail.

(** The format test of [z.string().email()], which is the library's. *)
Variable isEmail : string -> bool.

Definition z_name (value : option Value) : option string :=
  match z_string 2 50 value with
  | Some s => if letters_and_spaces s then Some s else None
  | None => None
  end.

Definition z_email (value : option Value) : option string :=
  match z_string 5 100 value with
  | Some s => if isEmail s then Some s else None
  | None => None
  end.

Definition z_password (value : option Value) : option string :=
  match z_string 8 50 value with
  | Some s =>
      if has is_upper s && has is_lower s && has is_digit s
         && has (fun c => negb (is_upper c || is_lower c || is_digit c)) s
      then Some s else None
  | None => None
  end.

Definition z_any_string (value : option Value) : option string :=
  match value with
  | Some (VString s) => Some s
  | _ => None
  end.

(** [registerSchema.parse(data)]; [None] when it throws. *)
Definition registerSchema_parse (data : Value) : option RegisterFormData :=
  match data with
  | VObject fields =>
      match z_name (fields !! "name"),
            z_email (fields !! "email"),
            z_password (fields !! "password"),
            z_any_string (fields !! "confirmPassword") with
      | Some n, Some e, Some p, Some c =>
          if bool_decide (p = c) then Some (mkRegister n e p c) else None
      | _, _, _, _ => None
      end
  | _ => None
  end.

Definition validateRegistration (data : Value)
    : Except IssueReport RegisterFormData :=
  match registerSchema_parse data with
  | Some validated => Return validated
  | None => Throw issue_report
  end.

Definition validateRegistrationServer
    (formData : list (string * Cache.FormDataEntryValue))
    : ServerResult RegisterFormData :=
  let rawData :=
    VObject {[ "name" := get formData "name";
               "email" := get formData "email";
               "password" := get formData "password";
               "confirmPassword" := get formData "confirmPassword" ]} in
  match validateRegistration rawData with
  | Return validatedData =>
      {| success := true; data := Some validatedData; error := None |}
  | Throw e => {| success := false; data := None; error := Some e |}
  end.

(** The conditions of the registration schema on its four strings. *)
Definition registration_ok (n e p c : string) : Prop :=
  (2 <= String.length n <= 50
   /\ forall ch, In ch (list_ascii_of_string n) ->
                 is_upper ch || is_lower ch || Optimistic.is_space ch = true)
  /\ (5 <= String.length e <= 100 /\ isEmail e = true)
  /\ (8 <= String.length p <= 50
      /\ (exists ch, In ch (list_ascii_of_string p) /\ is_upper ch = true)
      /\ (exists ch, In ch (list_ascii_of_string p) /\ is_lower ch = true)
      /\ (exists ch, In ch (list_ascii_of_string p) /\ is_digit ch = true)
      /\ (exists ch, In ch (list_ascii_of_string p)
                     /\ is_upper ch = false /\ is_lower ch = false
                     /\ is_digit ch = false))
  /\ c = p.

End WithEmail.

(** *** The tag editor and the submission of the post form *)

(** [addTag] *)
Definition addTag (tags : list string) : list string :=
  if Nat.ltb (length tags) 5 then tags ++ [""] else tags.

(** [tags.filter((_, i) => i !== index)], counting from [i]. *)
Fixpoint filter_index (i index : nat) (tags : list string) : list string :=
  match tags with
  | [] => []
  | tag :: rest =>
      if Nat.eqb i index then filter_index (S i) index rest
      else tag :: filter_index (S i) index rest
  end.

(** [removeTag] *)
Definition removeTag (index : nat) (tags : list string) : list string :=
  if Nat.ltb 1 (length tags) then filter_index 0 index tags else tags.

Inductive TagEdit :=
| AddTag
| RemoveTag (index : nat).

Definition edit (tags : list string) (e : TagEdit) : list string :=
  match e with
  | AddTag => addTag tags
  | RemoveTag index => removeTag index tags
  end.

(** The [FormData] that [handleSubmit] builds on the post tab. *)
Definition post_formData (title content : string) (tags : list string)
    : list (string * Cache.FormDataEntryValue) :=
  [("title", Cache.FormString title); ("content", Cache.FormString content)]
  ++ ((fun tag => ("tags", Cache.FormString tag)) <$> tags).

Definition submitPost (title content : string) (tags : list string)
    : ServerResult PostFormData :=
  validatePostServer (post_formData title content tags).

End Validation.

(** ** Sequences of submissions on app/optimistic/page.tsx *)

Module OptimisticCalls.

(** The module-level list after the calls of [addPost], each with its
    random draw. *)
Definition run (calls : list (Q * Optimistic.NewPost))
    (mockPosts : list Optimistic.StoredPost) : list Optimistic.StoredPost :=
  fold_left
    (fun posts call => snd (Optimistic.addPost (fst call) (snd call) posts))
    calls mockPosts.

End OptimisticCalls.

(** * Properties *)

(** ** Token issuance and verification *)

Section JwtFacts.
Import Jwt.

Lemma hmac_alg_HS256 : hmac_alg "HS256" = true.
Proof. reflexivity. Qed.

(** A token made by [SignJWT] under a key, issuer and audience passes
    [jwtVerify] under the same three exactly when it has not expired. *)
Lemma jwtVerify_SignJWT now now' uid un r iss aud life key token :
  SignJWT now uid un r "HS256" iss aud life key = Return token ->
  jwtVerify now' token key iss aud
  = if bool_decide (now + life <= now')%Z then inl JWTExpired
    else inr {| claim_userId := Some (through_JSON uid);
                claim_username := Some un;
                claim_role := Some r; iat := Some now; Jwt.iss := Some iss;
                Jwt.aud := Some aud; exp := Some (now + life)%Z;
                nbf := None |}.
Proof.
  unfold SignJWT. rewrite hmac_alg_HS256. intros [= <-].
  unfold jwtVerify. cbn [alg payload signature Jwt.iss Jwt.aud exp nbf].
  rewrite hmac_alg_HS256. cbn [negb].
  rewrite !bool_decide_eq_true_2 by reflexivity. cbn [negb].
  reflexivity.
Qed.

(** Signing with the fixed key and algorithm does not fail. *)
Lemma generateToken_Return now uid un r :
  exists token,
    generateToken now uid un r = Return token
    /\ SignJWT now uid un r "HS256" JWT_CONFIG.issuer JWT_CONFIG.audience
         JWT_CONFIG.expiresIn_secs secretKey = Return token.
Proof. eexists. split; reflexivity. Qed.

(** A token is rejected once the clock has reached its [exp]. *)
Lemma verifyToken_expired now now' uid un r token :
  generateToken now uid un r = Return token ->
  (now + 3600 <= now')%Z ->
  verifyToken now' token
  = Throw (mkError "Invalid or expired authentication token").
Proof.
  intros Hgen Hlate.
  destruct (generateToken_Return now uid un r) as (token' & Hgen' & Hsign).
  rewrite Hgen in Hgen'. injection Hgen' as <-.
  unfold verifyToken. rewrite (jwtVerify_SignJWT _ _ _ _ _ _ _ _ _ _ Hsign).
  unfold JWT_CONFIG.expiresIn_secs.
  rewrite bool_decide_eq_true_2 by assumption. reflexivity.
Qed.

(** C1 (as amended).  For every userId, username and role,
    [generateToken] returns a token.  While the clock is still before its
    expiry (less than 3600 seconds after the clock reading at issuance),
    [verifyToken] applied to that token succeeds with a payload under
    issuer 'next-methods-demo' and audience 'next-methods-client' whose
    username and role are the inputs and whose userId is the input when the
    input is finite (negative zero comes back as zero), and is null when
    the input is NaN or infinite.  From the expiry on, [verifyToken]
    throws 'Invalid or expired authentication token'. *)
Theorem verifyToken_generateToken now now' uid un r :
  exists token,
    generateToken now uid un r = Return token
    /\ ((now' < now + 3600)%Z ->
        exists payload,
          verifyToken now' token = Return payload
          /\ claim_userId payload
             = Some match uid with
                    | Int z => JSONInt z
                    | NegZero => JSONInt 0
                    | NaN | Infinity | NegInfinity => JSONNull
                    end
          /\ claim_username payload = Some un
          /\ claim_role payload = Some r
          /\ Jwt.iss payload = Some "next-methods-demo"
          /\ Jwt.aud payload = Some "next-methods-client")
    /\ ((now + 3600 <= now')%Z ->
        verifyToken now' token
        = Throw (mkError "Invalid or expired authentication token")).
Proof.
  destruct (generateToken_Return now uid un r) as (token & Hgen & Hsign).
  exists token. split; [exact Hgen|].
  unfold verifyToken. rewrite (jwtVerify_SignJWT _ _ _ _ _ _ _ _ _ _ Hsign).
  unfold JWT_CONFIG.expiresIn_secs. split.
  - intros Hfresh. rewrite bool_decide_eq_false_2 by lia.
    eexists. split; [reflexivity|].
    split; [by destruct uid|]. repeat split.
  - intros Hlate. by rewrite bool_decide_eq_true_2 by lia.
Qed.

Lemma verifyToken_generateToken_witness :
  exists token,
    generateToken 1000 (Int 1) "demo" "user" = Return token
    /\ (exists payload,
          verifyToken 4599 token = Return payload
          /\ claim_userId payload = Some (JSONInt 1)
          /\ claim_username payload = Some "demo"
          /\ claim_role payload = Some "user"
          /\ Jwt.iss payload = Some "next-methods-demo"
          /\ Jwt.aud payload = Some "next-methods-client")
    /\ verifyToken 4600 token
       = Throw (mkError "Invalid or expired authentication token").
Proof.
  destruct (verifyToken_generateToken 1000 4599 (Int 1) "demo" "user")
    as (token & Hgen & Hfresh & _).
  destruct (verifyToken_generateToken 1000 4600 (Int 1) "demo" "user")
    as (token' & Hgen' & _ & Hlate).
  rewrite Hgen in Hgen'. injection Hgen' as <-.
  exists token. split; [exact Hgen|]. split.
  - apply Hfresh. lia.
  - apply Hlate. lia.
Defined.

(** C1 (as stated) fails.  The token issued to the demo user at clock
    reading 1000 is refused at clock reading 4600, its expiry.  And the
    token issued for the userId NaN verifies, one second after issuance,
    with a payload whose userId is null, not the input. *)
Lemma verifyToken_generateToken_expired :
  (exists token,
      generateToken 1000 (Int 1) "demo" "user" = Return token
      /\ verifyToken 4600 token
         = Throw (mkError "Invalid or expired authentication token"))
  /\ (exists token payload,
        generateToken 1000 NaN "demo" "user" = Return token
        /\ verifyToken 1001 token = Return payload
        /\ claim_userId payload = Some JSONNull).
Proof.
  split.
  - eexists. split; reflexivity.
  - eexists. eexists. split; [reflexivity|]. split; reflexivity.
Qed.

End JwtFacts.

(** ** Login *)

Section AuthFacts.
Import Jwt.

Lemma findUser_Some username password user :
  findUser username password = Some user ->
  user ∈ mockUsers
  /\ Jwt.username user = username /\ Jwt.password user = password.
Proof.
  unfold findUser. intros Hfind.
  apply find_some in Hfind as [Hin Hp].
  apply andb_true_iff in Hp as [Hu Hpw].
  apply bool_decide_eq_true in Hu, Hpw.
  split; [by apply list_elem_of_In | done].
Qed.

(** The two mock users have different names, so the first match of
    [findUser] is the only one. *)
Lemma findUser_mock user :
  user ∈ mockUsers ->
  findUser (Jwt.username user) (Jwt.password user) = Some user.
Proof.
  unfold mockUsers. rewrite !elem_of_cons, elem_of_nil.
  intros [-> | [-> | []]]; reflexivity.
Qed.

Lemma findUser_None username password :
  findUser username password = None -> ~ credentials_match username password.
Proof.
  intros Hnone (user & Hin & <- & <-).
  rewrite (findUser_mock _ Hin) in Hnone. discriminate.
Qed.

(** C2.  [authenticate] answers with a success response exactly when the
    pair is the credentials of one of the two mock users.  In that case the
    response has status 200, carries the id, username and role of the
    matched user, and has a Set-Cookie header holding the token generated
    for that user; otherwise it has status 401, success false, and no
    Set-Cookie header. *)
Theorem authenticate_spec now username password :
  let r := Auth.authenticate now username password in
  (Auth.success (json r) = true <-> credentials_match username password)
  /\ (forall user,
        user ∈ mockUsers ->
        Jwt.username user = username ->
        Jwt.password user = password ->
        exists token,
          generateToken now (Int (Jwt.id user)) (Jwt.username user)
            (Jwt.role user)
          = Return token
          /\ status r = 200%Z
          /\ json r
             = Auth.AuthSuccess "Authentication successful"
                 (Some (Auth.mkUserInfo (Jwt.id user) (Jwt.username user)
                          (Jwt.role user)))
          /\ ("Set-Cookie",
              [Lit "auth-token="; Tok token;
               Lit "; Path=/; HttpOnly; SameSite=Lax; Max-Age=3600"])
             ∈ headers r)
  /\ (~ credentials_match username password ->
        status r = 401%Z
        /\ json r = Auth.AuthFailure "Invalid username or password"
        /\ Auth.success (json r) = false
        /\ ~ has_header "Set-Cookie" r).
Proof.
  intros r. subst r. unfold Auth.authenticate.
  destruct (findUser username password) as [user|] eqn:Hfind.
  - pose proof (findUser_Some _ _ _ Hfind) as (Hin & Hu & Hp).
    assert (Hm : credentials_match username password) by (exists user; done).
    cbn. split; [tauto|]. split; [|tauto].
    intros user' Hin' Hu' Hp'.
    assert (user' = user) as ->.
    { pose proof (findUser_mock _ Hin') as H'.
      rewrite Hu', Hp', Hfind in H'. congruence. }
    eexists. split; [reflexivity|].
    split; [reflexivity|]. split; [reflexivity|].
    apply elem_of_cons. right. apply elem_of_cons. left. reflexivity.
  - pose proof (findUser_None _ _ Hfind) as Hno.
    cbn. split; [split; [discriminate | tauto]|].
    split; [intros user Hin Hu Hp; exfalso; apply Hno; exists user; done|].
    intros _. repeat split; try reflexivity.
    intros [value Hv]. cbn in Hv.
    apply list_elem_of_singleton in Hv. discriminate.
Qed.

Lemma authenticate_spec_witness :
  Auth.success (json (Auth.authenticate 1000 "admin" "admin123")) = true
  /\ status (Auth.authenticate 1000 "admin" "admin123") = 200%Z
  /\ status (Auth.authenticate 1000 "admin" "password123") = 401%Z
  /\ ~ has_header "Set-Cookie" (Auth.authenticate 1000 "admin" "password123").
Proof.
  pose proof (authenticate_spec 1000 "admin" "admin123") as (Hiff & Hok & _).
  pose proof (authenticate_spec 1000 "admin" "password123") as (Hiff' & _ & Hno).
  assert (Hm : credentials_match "admin" "admin123").
  { exists (mkUser 2 "admin" "admin123" "admin").
    split; [|split; reflexivity].
    apply elem_of_cons. right. apply elem_of_cons. left. reflexivity. }
  assert (Hn : ~ credentials_match "admin" "password123").
  { apply findUser_None. reflexivity. }
  split; [apply Hiff, Hm|].
  split; [reflexivity|].
  destruct (Hno Hn) as (Hs & _ & _ & Hh). split; [exact Hs | exact Hh].
Defined.

End AuthFacts.

(** ** Route gating *)

Section MiddlewareFacts.
Import Middleware.

Lemma protected_not_login pathname :
  protected pathname -> pathname <> "/auth/login".
Proof. intros [H | H] ->; vm_compute in H; discriminate. Qed.

Lemma protected_orb pathname :
  protected pathname ->
  startsWith pathname "/dashboard" || startsWith pathname "/auth/protected"
  = true.
Proof. intros [-> | ->]; [reflexivity | apply orb_true_r]. Qed.

Lemma truthy_Some v : v <> "" -> truthy (Some v) = true.
Proof.
  intros Hv. unfold truthy. by rewrite bool_decide_eq_false_2.
Qed.

(** The decision on a protected route, by the truthiness of the cookie. *)
Lemma middleware_protected_cases request :
  protected (pathname (nextUrl request)) ->
  middleware request
  = if truthy (cookies request !! "auth-token") then next
    else toLogin request.
Proof.
  intros Hp. unfold middleware.
  rewrite (protected_orb _ Hp).
  rewrite (bool_decide_eq_false_2 _ (protected_not_login _ Hp)).
  rewrite orb_false_r. cbn [andb].
  destruct (truthy _); reflexivity.
Qed.

(** C3 (as amended).  A request for a path starting with '/dashboard' or
    '/auth/protected' that carries no 'auth-token' cookie, or carries one
    with the empty value, is redirected to '/auth/login' with the search
    parameter 'redirect' set to the requested path; one that carries a
    non-empty 'auth-token' cookie is not redirected: it is let through. *)
Theorem middleware_protected request :
  protected (pathname (nextUrl request)) ->
  ((cookies request !! "auth-token" = None
    \/ cookies request !! "auth-token" = Some "") ->
   middleware request
   = redirect {| origin := origin (url request);
                 pathname := "/auth/login";
                 searchParams :=
                   [("redirect", pathname (nextUrl request))] |})
  /\ (forall value,
        cookies request !! "auth-token" = Some value ->
        value <> "" ->
        middleware request = next).
Proof.
  intros Hp. rewrite (middleware_protected_cases _ Hp). split.
  - intros [-> | ->]; reflexivity.
  - intros value -> Hv. by rewrite truthy_Some.
Qed.

Lemma middleware_protected_witness :
  middleware (mkRequest (mkURL "http://localhost:3000" "/dashboard/settings" [])
                (mkURL "http://localhost:3000" "/dashboard/settings" []) ∅)
  = redirect (mkURL "http://localhost:3000" "/auth/login"
                [("redirect", "/dashboard/settings")])
  /\ middleware
       (mkRequest (mkURL "http://localhost:3000" "/auth/protected" [])
          (mkURL "http://localhost:3000" "/auth/protected" [])
          {[ "auth-token" := "abc" ]})
     = next.
Proof.
  split.
  - apply (middleware_protected
             (mkRequest
                (mkURL "http://localhost:3000" "/dashboard/settings" [])
                (mkURL "http://localhost:3000" "/dashboard/settings" []) ∅)).
    + left. reflexivity.
    + left. reflexivity.
  - apply (middleware_protected
             (mkRequest (mkURL "http://localhost:3000" "/auth/protected" [])
                (mkURL "http://localhost:3000" "/auth/protected" [])
                {[ "auth-token" := "abc" ]})) with (value := "abc").
    + right. reflexivity.
    + reflexivity.
    + discriminate.
Defined.

(** C3 (as stated) fails: a request for '/dashboard' that carries an
    'auth-token' cookie whose value is empty is redirected to the login
    page. *)
Lemma middleware_empty_cookie_redirected :
  let request :=
    mkRequest (mkURL "http://localhost:3000" "/dashboard" [])
      (mkURL "http://localhost:3000" "/dashboard" [])
      {[ "auth-token" := "" ]} in
  startsWith (pathname (nextUrl request)) "/dashboard" = true
  /\ is_Some (cookies request !! "auth-token")
  /\ middleware request
     = redirect (mkURL "http://localhost:3000" "/auth/login"
                   [("redirect", "/dashboard")]).
Proof.
  cbn zeta. split; [reflexivity|]. split; [|reflexivity].
  exists "". reflexivity.
Qed.

(** C4.  Two requests with the same path and URL that both carry a
    non-empty 'auth-token' cookie get the same decision, whatever the two
    cookie values (and the other cookies) are; on a protected route that
    decision is to let the request through. *)
Theorem middleware_ignores_cookie_value r1 r2 v1 v2 :
  pathname (nextUrl r1) = pathname (nextUrl r2) ->
  url r1 = url r2 ->
  cookies r1 !! "auth-token" = Some v1 -> v1 <> "" ->
  cookies r2 !! "auth-token" = Some v2 -> v2 <> "" ->
  middleware r1 = middleware r2
  /\ (protected (pathname (nextUrl r1)) ->
      middleware r1 = next /\ middleware r2 = next).
Proof.
  intros Hpath Hurl H1 Hv1 H2 Hv2. split.
  - unfold middleware. rewrite H1, H2, Hpath, Hurl.
    rewrite !truthy_Some by assumption. reflexivity.
  - intros Hp. split.
    + rewrite (middleware_protected_cases _ Hp), H1.
      by rewrite truthy_Some.
    + rewrite Hpath in Hp.
      rewrite (middleware_protected_cases _ Hp), H2.
      by rewrite truthy_Some.
Qed.

Lemma middleware_ignores_cookie_value_witness :
  let r1 := mkRequest (mkURL "http://localhost:3000" "/dashboard" [])
              (mkURL "http://localhost:3000" "/dashboard" [])
              {[ "auth-token" := "not-a-token" ]} in
  let r2 := mkRequest (mkURL "http://localhost:3000" "/dashboard" [])
              (mkURL "http://localhost:3000" "/dashboard" [])
              (<[ "theme" := "dark" ]> {[ "auth-token" := "x.y.z" ]}) in
  middleware r1 = middleware r2
  /\ (protected (pathname (nextUrl r1)) ->
      middleware r1 = next /\ middleware r2 = next).
Proof.
  cbn zeta.
  apply middleware_ignores_cookie_value with (v1 := "not-a-token") (v2 := "x.y.z").
  - reflexivity.
  - reflexivity.
  - reflexivity.
  - discriminate.
  - reflexivity.
  - discriminate.
Defined.

End MiddlewareFacts.

(** ** The posts handlers *)

Section PostsFacts.
Import Posts.

(** *** The schema *)

Lemma z_string_min_max_Return lo hi path value s :
  z_string_min_max lo hi path value = Return s
  <-> value = Some (JString s) /\ lo <= String.length s <= hi.
Proof.
  unfold z_string_min_max. split.
  - destruct value as [[| | |s'| |]|]; try discriminate.
    destruct (Nat.ltb_spec (String.length s') lo);
      destruct (Nat.ltb_spec hi (String.length s')); try discriminate.
    intros [= ->]. split; [reflexivity | lia].
  - intros [-> [Hlo Hhi]].
    destruct (Nat.ltb_spec (String.length s) lo); [lia|].
    destruct (Nat.ltb_spec hi (String.length s)); [lia|]. reflexivity.
Qed.

(** A string that fails reports one issue, at the given path. *)
Lemma z_string_min_max_Throw lo hi path value issues :
  z_string_min_max lo hi path value = Throw issues ->
  issues <> [] /\ Forall (fun issue => Posts.path issue = path) issues.
Proof.
  unfold z_string_min_max.
  destruct value as [[| | |s| |]|];
    try (intros [= <-]; split; [discriminate | repeat constructor]).
  destruct (Nat.ltb (String.length s) lo), (Nat.ltb hi (String.length s));
    try discriminate;
    intros [= <-]; split; try discriminate; repeat constructor.
Qed.

(** The schema accepts exactly the objects whose [title] is a string of 3
    to 100 characters and whose [content] is a string of 10 to 1000. *)
Lemma postSchema_parse_Return body validated :
  postSchema_parse body = Return validated
  <-> exists fields,
        body = JObject fields
        /\ fields !! "title" = Some (JString (input_title validated))
        /\ fields !! "content" = Some (JString (input_content validated))
        /\ 3 <= String.length (input_title validated) <= 100
        /\ 10 <= String.length (input_content validated) <= 1000.
Proof.
  split.
  - destruct body as [| | | | |fields]; try discriminate. cbn.
    destruct (z_string_min_max 3 100 _ _) as [t|] eqn:Ht;
      destruct (z_string_min_max 10 1000 _ _) as [c|] eqn:Hc;
      try discriminate.
    intros [= <-]. cbn.
    apply z_string_min_max_Return in Ht as [Ht ?], Hc as [Hc ?].
    exists fields. done.
  - intros (fields & -> & Ht & Hc & Hlt & Hlc). cbn.
    pose proof (proj2 (z_string_min_max_Return 3 100 ["title"]
                         (fields !! "title") (input_title validated))
                  (conj Ht Hlt)) as ->.
    pose proof (proj2 (z_string_min_max_Return 10 1000 ["content"]
                         (fields !! "content") (input_content validated))
                  (conj Hc Hlc)) as ->.
    by destruct validated.
Qed.

(** What [parse] throws is a [ZodError] with at least one issue, each at
    the root, at [title] or at [content]. *)
Lemma postSchema_parse_Throw body e :
  postSchema_parse body = Throw e ->
  exists issues,
    e = ZodError issues
    /\ issues <> []
    /\ Forall (fun issue => Posts.path issue = []
                            \/ Posts.path issue = ["title"]
                            \/ Posts.path issue = ["content"]) issues.
Proof.
  destruct body as [| | | | |fields]; cbn;
    try (intros [= <-]; eexists; split; [reflexivity|];
         split; [discriminate | repeat constructor; auto]).
  destruct (z_string_min_max 3 100 _ _) as [t|it] eqn:Ht;
    destruct (z_string_min_max 10 1000 _ _) as [c|ic] eqn:Hc;
    try discriminate; intros [= <-]; eexists; (split; [reflexivity|]); cbn.
  - apply z_string_min_max_Throw in Hc as [Hne Hall].
    split; [done|]. eapply Forall_impl; [exact Hall|]. cbn. auto.
  - apply z_string_min_max_Throw in Ht as [Hne Hall].
    rewrite app_nil_r.
    split; [done|]. eapply Forall_impl; [exact Hall|]. cbn. auto.
  - apply z_string_min_max_Throw in Ht as [Hne Hall].
    apply z_string_min_max_Throw in Hc as [Hne' Hall'].
    split; [by destruct it|].
    apply Forall_app. split; (eapply Forall_impl; [eassumption|]); cbn; auto.
Qed.

(** *** Creating a post *)

(** C5.  POST answers 201 with success true and appends exactly one post
    (made of the title and content of the body) when the body has a title
    of 3 to 100 characters and a content of 10 to 1000 characters; when the
    schema rejects the body it answers 400 with error 'Validation failed'
    and one detail per issue, each naming a field, and the stored list is
    unchanged. *)
Theorem POST_spec request mockPosts :
  (forall fields t c,
      body request = Some (JObject fields) ->
      fields !! "title" = Some (JString t) ->
      fields !! "content" = Some (JString c) ->
      3 <= String.length t <= 100 ->
      10 <= String.length c <= 1000 ->
      let newPost := mkPost (Z.of_nat (length mockPosts) + 1) t c in
      POST request mockPosts
      = (mkResponse 201
           (Success (OnePost newPost) "Post created successfully"),
         mockPosts ++ [newPost]))
  /\ (forall b issues,
        body request = Some b ->
        postSchema_parse b = Throw (ZodError issues) ->
        exists details,
          POST request mockPosts
          = (mkResponse 400 (Failure "Validation failed" (Fields details)),
             mockPosts)
          /\ details
             = List.map (fun issue =>
                           mkFieldError (join "." (path issue)) (code issue))
                 issues
          /\ details <> []
          /\ Forall (fun d => field d = "" \/ field d = "title"
                              \/ field d = "content") details).
Proof.
  split.
  - intros fields t c Hb Ht Hc Hlt Hlc newPost.
    unfold POST, request_json. rewrite Hb. cbn [bindE].
    assert (postSchema_parse (JObject fields) = Return (mkInput t c)) as ->.
    { apply postSchema_parse_Return. exists fields. done. }
    reflexivity.
  - intros b issues Hb Hparse.
    unfold POST, request_json. rewrite Hb. cbn [bindE]. rewrite Hparse.
    cbn [bindE catchE]. eexists. split; [reflexivity|].
    split; [reflexivity|].
    apply postSchema_parse_Throw in Hparse as (issues' & [= <-] & Hne & Hall).
    split; [by destruct issues|].
    apply Forall_map. eapply Forall_impl; [exact Hall|]. cbn.
    intros issue [-> | [-> | ->]]; cbn; auto.
Qed.

Lemma POST_spec_witness :
  POST (mkRequest []
          (Some (JObject {[ "title" := JString "Hello";
                            "content" := JString "A first paragraph." ]})))
    mockPosts
  = (mkResponse 201
       (Success (OnePost (mkPost 4 "Hello" "A first paragraph."))
          "Post created successfully"),
     mockPosts ++ [mkPost 4 "Hello" "A first paragraph."])
  /\ exists details,
       POST (mkRequest [] (Some (JObject {[ "title" := JString "Hi" ]})))
         mockPosts
       = (mkResponse 400 (Failure "Validation failed" (Fields details)),
          mockPosts)
       /\ details = [mkFieldError "title" (too_small 3);
                     mkFieldError "content" invalid_type].
Proof.
  split.
  - apply (proj1 (POST_spec
                    (mkRequest []
                       (Some (JObject
                                {[ "title" := JString "Hello";
                                   "content" := JString "A first paragraph." ]})))
                    mockPosts)
             {[ "title" := JString "Hello";
                "content" := JString "A first paragraph." ]}
             "Hello" "A first paragraph.").
    + reflexivity.
    + reflexivity.
    + reflexivity.
    + cbn. lia.
    + cbn. lia.
  - assert (Hparse :
      postSchema_parse (JObject {[ "title" := JString "Hi" ]})
      = Throw (ZodError [mkIssue (too_small 3) ["title"];
                         mkIssue invalid_type ["content"]]))
      by (vm_compute; reflexivity).
    destruct (proj2 (POST_spec
                       (mkRequest []
                          (Some (JObject {[ "title" := JString "Hi" ]})))
                       mockPosts)
                _ _ eq_refl Hparse)
      as (details & Heq & Hd & _).
    exists details. split; [exact Heq | exact Hd].
Defined.

(** *** Updating and deleting a post *)

Section NumberFacts.
Variable Number : string -> option Z.

(** The first match splits the list around it; updating or removing at its
    index touches nothing else. *)
Lemma findIndex_Some id mockPosts postIndex post :
  findIndex Number id mockPosts = Some (postIndex, post) ->
  exists l1 l2,
    mockPosts = l1 ++ post :: l2
    /\ length l1 = postIndex
    /\ Number id = Some (Posts.id post)
    /\ Forall (fun q => Number id <> Some (Posts.id q)) l1
    /\ (forall post', <[postIndex := post']> mockPosts = l1 ++ post' :: l2)
    /\ delete postIndex mockPosts = l1 ++ l2.
Proof.
  unfold findIndex. intros (Hlook & Hid & Hfirst)%list_find_Some.
  pose proof (lookup_lt_Some _ _ _ Hlook) as Hlt.
  exists (take postIndex mockPosts), (drop (S postIndex) mockPosts).
  split; [symmetry; by apply take_drop_middle|].
  split; [rewrite length_take; lia|].
  split; [exact Hid|].
  split.
  - apply Forall_forall. intros q Hq.
    apply list_elem_of_lookup in Hq as [j Hj].
    pose proof (lookup_lt_Some _ _ _ Hj) as Hjlt.
    rewrite length_take in Hjlt.
    rewrite lookup_take_lt in Hj by lia.
    apply (Hfirst j q Hj). lia.
  - split; [intros post'; by apply insert_take_drop|].
    apply delete_take_drop.
Qed.

Lemma findIndex_None id mockPosts :
  findIndex Number id mockPosts = None
  <-> Forall (fun q => Number id <> Some (Posts.id q)) mockPosts.
Proof. unfold findIndex. apply list_find_None. Qed.

(** C6 (as amended).  PUT and DELETE answer 400 with error 'Post ID is
    required' when the 'id' query parameter is absent or empty.  When it is
    not empty and no stored post has that id, DELETE answers 404 with error
    'Post not found', and so does PUT provided the body passes the schema
    (the body is read and validated before the post is looked up).  Every
    answer with success false leaves the stored list unchanged. *)
Theorem PUT_DELETE_errors request mockPosts :
  let id := searchParams_get (searchParams request) "id" in
  ((id = None \/ id = Some "") ->
   PUT Number request mockPosts
   = (mkResponse 400 (Failure "Post ID is required" NoDetails), mockPosts)
   /\ DELETE Number request mockPosts
      = (mkResponse 400 (Failure "Post ID is required" NoDetails), mockPosts))
  /\ (forall s,
        id = Some s -> s <> "" ->
        Forall (fun post => Number s <> Some (Posts.id post)) mockPosts ->
        DELETE Number request mockPosts
        = (mkResponse 404 (Failure "Post not found" NoDetails), mockPosts)
        /\ (forall b validated,
              body request = Some b ->
              postSchema_parse b = Return validated ->
              PUT Number request mockPosts
              = (mkResponse 404 (Failure "Post not found" NoDetails),
                 mockPosts)))
  /\ (forall response mockPosts',
        PUT Number request mockPosts = (response, mockPosts')
        \/ DELETE Number request mockPosts = (response, mockPosts') ->
        success (json response) = false ->
        mockPosts' = mockPosts).
Proof.
  intros id. subst id. unfold PUT, DELETE, request_json.
  split; [|split].
  - intros [-> | ->]; split; reflexivity.
  - intros s -> Hs Hnone. destruct s as [|a s]; [done|].
    apply findIndex_None in Hnone. rewrite Hnone. split; [reflexivity|].
    intros b validated -> Hparse. cbn [bindE]. rewrite Hparse. reflexivity.
  - intros response mockPosts' Hrun Hfail.
    destruct (searchParams_get _ _) as [[|a s]|];
      [destruct Hrun as [[= <- <-] | [= <- <-]]; reflexivity| |
       destruct Hrun as [[= <- <-] | [= <- <-]]; reflexivity].
    destruct (findIndex _ _ _) as [[postIndex post]|].
    + destruct Hrun as [Hrun | [= <- <-]]; [|discriminate].
      destruct (body request) as [b|]; cbn in Hrun;
        [|by injection Hrun as <- <-].
      destruct (postSchema_parse b) as [validated|[issues|]]; cbn in Hrun;
        injection Hrun as <- <-; [discriminate | reflexivity | reflexivity].
    + destruct Hrun as [Hrun | [= <- <-]]; [|reflexivity].
      destruct (body request) as [b|]; cbn in Hrun;
        [|by injection Hrun as <- <-].
      destruct (postSchema_parse b) as [validated|[issues|]]; cbn in Hrun;
        by injection Hrun as <- <-.
Qed.

(** C7.  A successful PUT replaces the title and content of the first
    stored post whose id matches by those of the validated body, keeping
    its id and every other post; a successful DELETE removes exactly the
    first stored post whose id matches, and the remaining posts are
    unchanged and in the same order. *)
Theorem PUT_DELETE_frame request mockPosts response mockPosts' :
  success (json response) = true ->
  (PUT Number request mockPosts = (response, mockPosts') ->
   exists id b validated l1 post l2,
     searchParams_get (searchParams request) "id" = Some id
     /\ body request = Some b
     /\ postSchema_parse b = Return validated
     /\ mockPosts = l1 ++ post :: l2
     /\ Number id = Some (Posts.id post)
     /\ Forall (fun q => Number id <> Some (Posts.id q)) l1
     /\ mockPosts'
        = l1 ++ mkPost (Posts.id post) (input_title validated)
                  (input_content validated) :: l2
     /\ response
        = mkResponse 200
            (Success
               (OnePost (mkPost (Posts.id post) (input_title validated)
                           (input_content validated)))
               "Post updated successfully"))
  /\ (DELETE Number request mockPosts = (response, mockPosts') ->
      exists id l1 post l2,
        searchParams_get (searchParams request) "id" = Some id
        /\ mockPosts = l1 ++ post :: l2
        /\ Number id = Some (Posts.id post)
        /\ Forall (fun q => Number id <> Some (Posts.id q)) l1
        /\ mockPosts' = l1 ++ l2
        /\ response
           = mkResponse 200
               (Success (OnePost post) "Post deleted successfully")).
Proof.
  intros Hok. unfold PUT, DELETE, request_json. split.
  - destruct (searchParams_get _ _) as [[|a s]|];
      try (intros [= <- <-]; discriminate).
    destruct (body request) as [b|]; cbn [bindE catchE];
      [|intros [= <- <-]; discriminate].
    destruct (postSchema_parse b) as [validated|[issues|]] eqn:Hparse;
      cbn [bindE catchE]; try (intros [= <- <-]; discriminate).
    destruct (findIndex _ _ _) as [[postIndex post]|] eqn:Hfind;
      cbn [catchE]; [|intros [= <- <-]; discriminate].
    intros [= <- <-].
    apply findIndex_Some in Hfind
      as (l1 & l2 & Heq & _ & Hid & Hfirst & Hins & _).
    exists (String a s), b, validated, l1, post, l2.
    rewrite Hins. done.
  - destruct (searchParams_get _ _) as [[|a s]|];
      try (intros [= <- <-]; discriminate).
    destruct (findIndex _ _ _) as [[postIndex post]|] eqn:Hfind;
      [|intros [= <- <-]; discriminate].
    intros [= <- <-].
    apply findIndex_Some in Hfind
      as (l1 & l2 & Heq & _ & Hid & Hfirst & _ & Hdel).
    exists (String a s), l1, post, l2. rewrite Hdel. done.
Qed.

End NumberFacts.

Lemma PUT_DELETE_errors_witness :
  let request := mkRequest [("id", "7")]
                   (Some (JObject {[ "title" := JString "Edited";
                                     "content" := JString "Edited content" ]})) in
  DELETE Number_int request mockPosts
  = (mkResponse 404 (Failure "Post not found" NoDetails), mockPosts)
  /\ PUT Number_int request mockPosts
     = (mkResponse 404 (Failure "Post not found" NoDetails), mockPosts)
  /\ PUT Number_int (mkRequest [("page", "2")] None) mockPosts
     = (mkResponse 400 (Failure "Post ID is required" NoDetails), mockPosts).
Proof.
  cbn zeta.
  pose proof (PUT_DELETE_errors Number_int
                (mkRequest [("id", "7")]
                   (Some (JObject {[ "title" := JString "Edited";
                                     "content" := JString "Edited content" ]})))
                mockPosts) as (_ & Hmissing & _).
  pose proof (PUT_DELETE_errors Number_int
                (mkRequest [("page", "2")] None) mockPosts) as (Habsent & _).
  destruct (Hmissing "7") as [Hdel Hput].
  - reflexivity.
  - discriminate.
  - repeat constructor; discriminate.
  - split; [exact Hdel|]. split.
    + apply (Hput (JObject {[ "title" := JString "Edited";
                              "content" := JString "Edited content" ]})
               (mkInput "Edited" "Edited content")).
      * reflexivity.
      * vm_compute. reflexivity.
    + apply Habsent. left. reflexivity.
Defined.

(** C6 (as stated) fails.  For PUT with id 99, which no stored post has,
    and a body the schema rejects, the answer is 400 'Validation failed',
    not 404 'Post not found'.  For DELETE with an 'id' parameter that is
    present and empty (its number is 0, which no stored post has), the
    answer is 400 'Post ID is required', not 404. *)
Lemma PUT_unknown_id_invalid_body :
  let request := mkRequest [("id", "99")]
                   (Some (JObject {[ "title" := JString "ab" ]})) in
  let request' := mkRequest [("id", "")] None in
  (searchParams_get (searchParams request) "id" = Some "99"
   /\ Forall (fun post => Number_int "99" <> Some (Posts.id post)) mockPosts
   /\ PUT Number_int request mockPosts
      = (mkResponse 400
           (Failure "Validation failed"
              (Issues [mkIssue (too_small 3) ["title"];
                       mkIssue invalid_type ["content"]])),
         mockPosts))
  /\ (searchParams_get (searchParams request') "id" = Some ""
      /\ Forall (fun post => Number_int "" <> Some (Posts.id post)) mockPosts
      /\ DELETE Number_int request' mockPosts
         = (mkResponse 400 (Failure "Post ID is required" NoDetails),
            mockPosts)).
Proof.
  cbn zeta. split.
  - split; [reflexivity|]. split.
    + repeat constructor; discriminate.
    + vm_compute. reflexivity.
  - split; [reflexivity|]. split.
    + repeat constructor; discriminate.
    + reflexivity.
Qed.

Lemma PUT_DELETE_frame_witness :
  (exists id b validated l1 post l2,
     searchParams_get [("id", "2")] "id" = Some id
     /\ Some (JObject {[ "title" := JString "Edited";
                         "content" := JString "Edited content" ]}) = Some b
     /\ postSchema_parse b = Return validated
     /\ mockPosts = l1 ++ post :: l2
     /\ Number_int id = Some (Posts.id post)
     /\ Forall (fun q => Number_int id <> Some (Posts.id q)) l1
     /\ [mkPost 1 "First Post" "This is the first post content";
         mkPost 2 "Edited" "Edited content";
         mkPost 3 "Third Post" "This is the third post content"]
        = l1 ++ mkPost (Posts.id post) (input_title validated)
                  (input_content validated) :: l2
     /\ mkResponse 200
          (Success (OnePost (mkPost 2 "Edited" "Edited content"))
             "Post updated successfully")
        = mkResponse 200
            (Success
               (OnePost (mkPost (Posts.id post) (input_title validated)
                           (input_content validated)))
               "Post updated successfully"))
  /\ (exists id l1 post l2,
        searchParams_get [("id", "2")] "id" = Some id
        /\ mockPosts = l1 ++ post :: l2
        /\ Number_int id = Some (Posts.id post)
        /\ Forall (fun q => Number_int id <> Some (Posts.id q)) l1
        /\ [mkPost 1 "First Post" "This is the first post content";
            mkPost 3 "Third Post" "This is the third post content"]
           = l1 ++ l2
        /\ mkResponse 200
             (Success
                (OnePost (mkPost 2 "Second Post"
                            "This is the second post content"))
                "Post deleted successfully")
           = mkResponse 200
               (Success (OnePost post) "Post deleted successfully")).
Proof.
  split.
  - apply (proj1 (PUT_DELETE_frame Number_int
                    (mkRequest [("id", "2")]
                       (Some (JObject
                                {[ "title" := JString "Edited";
                                   "content" := JString "Edited content" ]})))
                    mockPosts
                    (mkResponse 200
                       (Success (OnePost (mkPost 2 "Edited" "Edited content"))
                          "Post updated successfully"))
                    [mkPost 1 "First Post" "This is the first post content";
                     mkPost 2 "Edited" "Edited content";
                     mkPost 3 "Third Post" "This is the third post content"]
                    eq_refl)).
    vm_compute. reflexivity.
  - apply (proj2 (PUT_DELETE_frame Number_int
                    (mkRequest [("id", "2")] None)
                    mockPosts
                    (mkResponse 200
                       (Success
                          (OnePost (mkPost 2 "Second Post"
                                      "This is the second post content"))
                          "Post deleted successfully"))
                    [mkPost 1 "First Post" "This is the first post content";
                     mkPost 3 "Third Post" "This is the third post content"]
                    eq_refl)).
    vm_compute. reflexivity.
Defined.

(** *** Ids of new posts *)

(** C10.  A successful POST gives the new post the id [length + 1], the
    number of stored posts before the insertion plus one; the answer depends
    on the stored list through its length only, so the ids already stored
    are not consulted.  Consequently a DELETE of a post that is not the last
    one followed by a POST leaves two stored posts with the same id. *)
Theorem POST_id_from_length :
  (forall request mockPosts response mockPosts',
      POST request mockPosts = (response, mockPosts') ->
      status response = 201%Z ->
      exists t c,
        let newPost := mkPost (Z.of_nat (length mockPosts) + 1) t c in
        mockPosts' = mockPosts ++ [newPost]
        /\ json response
           = Success (OnePost newPost) "Post created successfully")
  /\ (forall request posts1 posts2,
        length posts1 = length posts2 ->
        fst (POST request posts1) = fst (POST request posts2))
  /\ (exists deletion creation r1 posts1 r2 posts2 deleted,
        DELETE Number_int deletion mockPosts = (r1, posts1)
        /\ r1 = mkResponse 200
                  (Success (OnePost deleted) "Post deleted successfully")
        /\ last mockPosts <> Some deleted
        /\ POST creation posts1 = (r2, posts2)
        /\ status r2 = 201%Z
        /\ exists i j p q,
             i <> j /\ posts2 !! i = Some p /\ posts2 !! j = Some q
             /\ Posts.id p = Posts.id q).
Proof.
  split; [|split].
  - intros request mockPosts response mockPosts'.
    unfold POST, request_json.
    destruct (body request) as [b|]; cbn [bindE catchE];
      [|intros [= <- <-]; discriminate].
    destruct (postSchema_parse b) as [validated|[issues|]];
      cbn [bindE catchE]; try (intros [= <- <-]; discriminate).
    intros [= <- <-] _.
    exists (input_title validated), (input_content validated). done.
  - intros request posts1 posts2 Hlen.
    unfold POST, request_json.
    destruct (body request) as [b|]; cbn [bindE catchE]; [|reflexivity].
    destruct (postSchema_parse b) as [validated|[issues|]];
      cbn [bindE catchE fst]; [|reflexivity|reflexivity].
    by rewrite Hlen.
  - exists (mkRequest [("id", "1")] None).
    exists (mkRequest []
              (Some (JObject {[ "title" := JString "Fourth Post";
                                "content" := JString "This is the fourth" ]}))).
    eexists. eexists. eexists. eexists. eexists.
    split; [vm_compute; reflexivity|].
    split; [reflexivity|].
    split; [discriminate|].
    split; [vm_compute; reflexivity|].
    split; [reflexivity|].
    exists 1, 2. eexists. eexists.
    split; [lia|]. split; [reflexivity|]. split; reflexivity.
Qed.

(** The sequence in full: deleting the first post and creating one leaves
    the ids 2, 3, 3. *)
Example DELETE_then_POST_ids :
  let posts1 :=
    snd (DELETE Number_int (mkRequest [("id", "1")] None) mockPosts) in
  let posts2 :=
    snd (POST (mkRequest []
                 (Some (JObject {[ "title" := JString "Fourth Post";
                                   "content" := JString "This is the fourth" ]})))
           posts1) in
  Posts.id <$> posts2 = [2; 3; 3]%Z.
Proof. vm_compute. reflexivity. Qed.

Lemma POST_id_from_length_witness :
  exists t c,
    let newPost := mkPost (Z.of_nat (length mockPosts) + 1) t c in
    mockPosts ++ [mkPost 4 "Fourth Post" "This is the fourth"]
    = mockPosts ++ [newPost]
    /\ Success (OnePost (mkPost 4 "Fourth Post" "This is the fourth"))
         "Post created successfully"
       = Success (OnePost newPost) "Post created successfully".
Proof.
  apply (proj1 POST_id_from_length
           (mkRequest []
              (Some (JObject {[ "title" := JString "Fourth Post";
                                "content" := JString "This is the fourth" ]})))
           mockPosts
           (mkResponse 201
              (Success (OnePost (mkPost 4 "Fourth Post" "This is the fourth"))
                 "Post created successfully"))
           (mockPosts ++ [mkPost 4 "Fourth Post" "This is the fourth"])).
  - vm_compute. reflexivity.
  - reflexivity.
Defined.

End PostsFacts.

(** ** The simulated server call of the optimistic page *)

Section OptimisticFacts.
Import Optimistic.

Lemma optimisticPosts_begin now st st' mockPosts :
  handleSubmit_begin now st = Some st' ->
  optimisticPosts mockPosts st'
  = optimisticPosts mockPosts st
    ++ [mkPost (TempId now) (form_title st) (form_content st) (Some true)].
Proof.
  unfold handleSubmit_begin.
  destruct (blank (form_title st) || blank (form_content st));
    [discriminate|].
  intros [= <-]. unfold optimisticPosts. cbn [pending].
  rewrite fold_left_app. reflexivity.
Qed.

Lemma pending_settle random st mockPosts :
  pending (fst (handleSubmit_settle random st mockPosts))
  = removelast (pending st).
Proof.
  unfold handleSubmit_settle. by destruct (addPost _ _ _).
Qed.

(** C8.  [addPost] leaves the module-level list unchanged whenever it
    reports failure, and when it reports success it has appended exactly
    one post, with the given title and content.  Hence, for a submission
    whose call fails: the optimistic entry is shown while the call is
    pending, and once it has settled the confirmed list is the one before
    the submission and the shown list no longer has the entry. *)
Theorem addPost_failure_leaves_posts random mockPosts :
  (forall newPost result mockPosts',
      addPost random newPost mockPosts = (result, mockPosts') ->
      (success result = false -> mockPosts' = mockPosts)
      /\ (success result = true ->
          exists p,
            post result = Some p
            /\ stored_title p = new_title newPost
            /\ stored_content p = new_content newPost
            /\ mockPosts' = mockPosts ++ [p]))
  /\ (forall now st st1 st2 mockPosts',
        handleSubmit_begin now st = Some st1 ->
        handleSubmit_settle random st1 mockPosts = (st2, mockPosts') ->
        success (fst (addPost random
                        (mkNew (form_title st) (form_content st)) mockPosts))
        = false ->
        optimisticPosts mockPosts st1
        = optimisticPosts mockPosts st
          ++ [mkPost (TempId now) (form_title st) (form_content st)
                (Some true)]
        /\ mockPosts' = mockPosts
        /\ optimisticPosts mockPosts' st2 = optimisticPosts mockPosts st
        /\ is_Some (form_error st2)).
Proof.
  split.
  - intros newPost result mockPosts'. unfold addPost.
    destruct (Qlt_le_dec random (2 # 10)); intros [= <- <-]; cbn.
    + split; [reflexivity | discriminate].
    + split; [discriminate|]. intros _. eexists. by repeat split.
  - intros now st st1 st2 mockPosts' Hbegin Hsettle Hfail.
    split; [by apply optimisticPosts_begin|].
    pose proof (pending_settle random st1 mockPosts) as Hpending.
    rewrite Hsettle in Hpending. cbn [fst] in Hpending.
    assert (Hst1 : form_title st1 = form_title st
                   /\ form_content st1 = form_content st
                   /\ pending st1
                      = pending st
                        ++ [mkAction (form_title st) (form_content st) now]).
    { unfold handleSubmit_begin in Hbegin.
      destruct (blank _ || blank _); [discriminate|].
      by injection Hbegin as <-. }
    destruct Hst1 as (Ht & Hc & Hp).
    unfold handleSubmit_settle in Hsettle. rewrite Ht, Hc in Hsettle.
    unfold addPost in Hsettle, Hfail.
    destruct (Qlt_le_dec random (2 # 10)); [|discriminate].
    injection Hsettle as <- <-. split; [reflexivity|].
    split; [|cbn; eauto].
    unfold optimisticPosts. cbn [pending]. rewrite Hp.
    by rewrite removelast_last.
Qed.

Lemma addPost_failure_leaves_posts_witness :
  let st := mkState "Draft" "Some words" false None [] in
  let st1 := mkState "Draft" "Some words" true None
               [mkAction "Draft" "Some words" 1700000000000] in
  let st2 := mkState "" "" false
               (Some "Failed to save post. Please try again.") [] in
  optimisticPosts mockPosts st1
  = optimisticPosts mockPosts st
    ++ [mkPost (TempId 1700000000000) "Draft" "Some words" (Some true)]
  /\ mockPosts = mockPosts
  /\ optimisticPosts mockPosts st2 = optimisticPosts mockPosts st
  /\ is_Some (form_error st2).
Proof.
  cbn zeta.
  apply (proj2 (addPost_failure_leaves_posts (1 # 10) mockPosts)
           1700000000000%Z
           (mkState "Draft" "Some words" false None [])
           (mkState "Draft" "Some words" true None
              [mkAction "Draft" "Some words" 1700000000000])
           (mkState "" "" false
              (Some "Failed to save post. Please try again.") [])
           mockPosts).
  - reflexivity.
  - reflexivity.
  - reflexivity.
Defined.

End OptimisticFacts.

(** ** The tagged cache and its actions *)

Section CacheFacts.
Import Cache.

Lemma invalidate_exactly {V} how tag (cache : gmap string (Entry V)) :
  how <> Fresh ->
  invalidates_exactly tag cache (invalidate how tag cache).
Proof.
  intros Hhow key. unfold invalidate. rewrite lookup_fmap.
  destruct (cache !! key) as [e|]; [|reflexivity]. cbn.
  eexists. split; [reflexivity|].
  case_bool_decide as Htag; cbn.
  - repeat split; try done.
  - repeat split; try done.
Qed.

Lemma posts_entry_ok_invalidate how tag cache :
  posts_entry_ok cache -> posts_entry_ok (invalidate how tag cache).
Proof.
  intros Hok e. unfold invalidate. rewrite lookup_fmap.
  destruct (cache !! "getCachedPosts") as [e0|] eqn:He0; [|discriminate].
  destruct (Hok e0 He0) as [Ht Hv]. cbn.
  case_bool_decide; intros [= <-]; cbn; done.
Qed.

Lemma posts_entry_ok_get cache :
  posts_entry_ok cache ->
  fst (getCachedPosts cache) = run_value getCachedPosts_body
  /\ posts_entry_ok (snd (getCachedPosts cache)).
Proof.
  intros Hok. unfold getCachedPosts, use_cache.
  assert (Hnew : posts_entry_ok
                   (<["getCachedPosts" :=
                        mkEntry (run_tags getCachedPosts_body)
                          (run_value getCachedPosts_body) Fresh]> cache)).
  { intros e. rewrite lookup_insert_eq. by intros [= <-]. }
  destruct (cache !! "getCachedPosts") as [e|] eqn:He; [|done].
  destruct (Hok e He) as [Ht Hv].
  destruct (freshness e); done.
Qed.

Lemma posts_entry_ok_step cache c :
  posts_entry_ok cache -> posts_entry_ok (step cache c).
Proof.
  intros Hok. destruct c as [| |formData]; cbn.
  - by apply posts_entry_ok_get.
  - by apply posts_entry_ok_invalidate.
  - unfold handleAddPost. destruct (_ || _); cbn; [done|].
    by apply posts_entry_ok_invalidate.
Qed.

Lemma posts_entry_ok_run calls cache :
  posts_entry_ok cache -> posts_entry_ok (run calls cache).
Proof.
  unfold run. revert cache.
  induction calls as [|c calls IH]; intros cache Hok; cbn; [done|].
  apply IH. by apply posts_entry_ok_step.
Qed.

(** C9 (as amended).  [getCachedPosts] attaches the single label 'posts'
    and, after any sequence of calls starting from the empty cache, returns
    the same list of three posts and is stored under that single label.
    [revalidatePostsImmediately] invalidates exactly the entries labelled
    'posts' and changes nothing else.  [handleAddPost] does the same when
    the form has a non-empty title and a non-empty content; otherwise it
    throws 'Title and content are required' and leaves the cache as it
    was. *)
Theorem cache_actions_invalidate_posts :
  run_tags getCachedPosts_body = ["posts"]
  /\ (forall calls,
        let cache := run calls ∅ in
        fst (getCachedPosts cache)
        = [mkPost 1 "Post A" "Content A";
           mkPost 2 "Post B" "Content B";
           mkPost 3 "Post C" "Content C"]
        /\ exists e,
             snd (getCachedPosts cache) !! "getCachedPosts" = Some e
             /\ tags e = ["posts"] /\ freshness e = Fresh)
  /\ (forall cache : gmap string (Entry (list Post)),
        invalidates_exactly "posts" cache (revalidatePostsImmediately cache))
  /\ (forall formData (cache : gmap string (Entry (list Post))),
        if missing (FormData_get formData "title")
           || missing (FormData_get formData "content")
        then handleAddPost formData cache
             = (Throw (mkError "Title and content are required"), cache)
        else exists cache',
               handleAddPost formData cache = (Return tt, cache')
               /\ invalidates_exactly "posts" cache cache').
Proof.
  split; [reflexivity|]. split; [|split].
  - intros calls cache.
    assert (Hok : posts_entry_ok cache).
    { apply posts_entry_ok_run. intros e. by rewrite lookup_empty. }
    destruct (posts_entry_ok_get cache Hok) as [Hval Hok'].
    split; [exact Hval|].
    unfold getCachedPosts, use_cache in *.
    destruct (cache !! "getCachedPosts") as [e|] eqn:He.
    + destruct (freshness e) eqn:Hf; cbn.
      * exists e. destruct (Hok e He). done.
      * eexists. rewrite lookup_insert_eq. done.
      * eexists. rewrite lookup_insert_eq. done.
    + eexists. cbn. rewrite lookup_insert_eq. done.
  - intros cache. by apply invalidate_exactly.
  - intros formData cache. unfold handleAddPost.
    destruct (_ || _); [reflexivity|].
    eexists. split; [reflexivity|]. by apply invalidate_exactly.
Qed.

(** C9 (as stated) fails for [handleAddPost]: submitted without a title, it
    throws before reaching the invalidation, and the entry labelled 'posts'
    stays fresh. *)
Lemma handleAddPost_without_title :
  let cache := snd (getCachedPosts ∅) in
  let formData := [("content", FormString "Some content")] in
  handleAddPost formData cache
  = (Throw (mkError "Title and content are required"), cache)
  /\ exists e,
       snd (handleAddPost formData cache) !! "getCachedPosts" = Some e
       /\ "posts" ∈ tags e
       /\ freshness e = Fresh.
Proof.
  cbn zeta. split; [reflexivity|].
  eexists. split; [vm_compute; reflexivity|].
  split; [|reflexivity]. cbn. apply elem_of_cons. by left.
Qed.

Lemma cache_actions_invalidate_posts_witness :
  let cache : gmap string (Entry (list Post)) :=
    <["other" := mkEntry ["users"] [] Fresh]> (snd (getCachedPosts ∅)) in
  invalidates_exactly "posts" cache (revalidatePostsImmediately cache)
  /\ exists cache',
       handleAddPost [("title", FormString "T"); ("content", FormString "C")]
         cache
       = (Return tt, cache')
       /\ invalidates_exactly "posts" cache cache'.
Proof.
  cbn zeta.
  destruct cache_actions_invalidate_posts as (_ & _ & Hrev & Hadd).
  split; [apply Hrev|].
  apply (Hadd [("title", FormString "T"); ("content", FormString "C")]).
Defined.

End CacheFacts.

(** ** Verification of requests, the login route and the dashboard *)

Section AuthFlowFacts.
Import Jwt.

(** What [verifyToken] throws carries one message, whatever went wrong. *)
Lemma verifyToken_Throw now token e :
  verifyToken now token = Throw e ->
  e = mkError "Invalid or expired authentication token".
Proof.
  unfold verifyToken. destruct (jwtVerify _ _ _ _ _); [|discriminate].
  by intros [= <-].
Qed.

(** X1.  Whatever [verifyToken] accepts is a well-formed token whose tag
    was made with the secret key over exactly the header and claims it
    carries, with the configured issuer and audience, and (when it has an
    expiry) an expiry still ahead of the clock; the payload returned is the
    one the token carries. *)
Theorem verifyToken_sound now token payload :
  verifyToken now token = Return payload ->
  exists jws,
    token = Compact jws
    /\ Jwt.payload jws = payload
    /\ signature jws = Mac secretKey (alg jws) payload
    /\ iss payload = Some "next-methods-demo"
    /\ aud payload = Some "next-methods-client"
    /\ (forall t, exp payload = Some t -> (now < t)%Z).
Proof.
  unfold verifyToken, jwtVerify.
  destruct token as [jws|raw]; [|discriminate].
  destruct (hmac_alg (alg jws)); cbn [negb]; [|discriminate].
  case_bool_decide as Hsig; cbn [negb]; [|discriminate].
  case_bool_decide as Hiss; cbn [negb]; [|discriminate].
  case_bool_decide as Haud; cbn [negb]; [|discriminate].
  destruct (match nbf (Jwt.payload jws) with
            | Some t => bool_decide (now < t)%Z
            | None => false
            end); [discriminate|].
  destruct (exp (Jwt.payload jws)) as [t|] eqn:Hexp.
  - case_bool_decide as Hlate; [discriminate|].
    intros [= <-]. exists jws. repeat split; try done.
    intros t' Ht'. rewrite Hexp in Ht'. injection Ht' as <-. lia.
  - intros [= <-]. exists jws. repeat split; try done.
    intros t' Ht'. rewrite Hexp in Ht'. discriminate.
Qed.

Lemma verifyToken_sound_witness :
  exists jws,
    Compact {| alg := "HS256";
               payload := mkPayload (Some (JSONInt 1)) (Some "demo") (Some "user")
                            (Some 1000%Z) (Some "next-methods-demo")
                            (Some "next-methods-client") (Some 4600%Z) None;
               signature :=
                 Mac secretKey "HS256"
                   (mkPayload (Some (JSONInt 1)) (Some "demo") (Some "user")
                      (Some 1000%Z) (Some "next-methods-demo")
                      (Some "next-methods-client") (Some 4600%Z) None) |}
    = Compact jws
    /\ Jwt.payload jws
       = mkPayload (Some (JSONInt 1)) (Some "demo") (Some "user")
           (Some 1000%Z) (Some "next-methods-demo")
           (Some "next-methods-client") (Some 4600%Z) None
    /\ signature jws
       = Mac secretKey (alg jws)
           (mkPayload (Some (JSONInt 1)) (Some "demo") (Some "user")
              (Some 1000%Z) (Some "next-methods-demo")
              (Some "next-methods-client") (Some 4600%Z) None)
    /\ iss (mkPayload (Some (JSONInt 1)) (Some "demo") (Some "user")
              (Some 1000%Z) (Some "next-methods-demo")
              (Some "next-methods-client") (Some 4600%Z) None)
       = Some "next-methods-demo"
    /\ aud (mkPayload (Some (JSONInt 1)) (Some "demo") (Some "user")
              (Some 1000%Z) (Some "next-methods-demo")
              (Some "next-methods-client") (Some 4600%Z) None)
       = Some "next-methods-client"
    /\ (forall t,
          exp (mkPayload (Some (JSONInt 1)) (Some "demo") (Some "user")
                 (Some 1000%Z) (Some "next-methods-demo")
                 (Some "next-methods-client") (Some 4600%Z) None)
          = Some t -> (2000 < t)%Z).
Proof.
  apply (verifyToken_sound 2000). vm_compute. reflexivity.
Defined.

(** An empty cookie value is no token. *)
Lemma verifyToken_empty now :
  verifyToken now (Malformed "")
  = Throw (mkError "Invalid or expired authentication token").
Proof. reflexivity. Qed.

Lemma missing_false authToken :
  AuthRequest.missing authToken = false ->
  exists t, authToken = Some t /\ t <> Malformed "".
Proof.
  destruct authToken as [[jws|[|a raw]]|]; try discriminate;
    intros _; eexists; (split; [reflexivity|discriminate]).
Qed.

(** [verifyAuthentication], case by case. *)
Lemma verifyAuthentication_cases now request :
  AuthRequest.verifyAuthentication now request
  = match AuthRequest.cookies request !! "auth-token" with
    | None | Some (Malformed "") =>
        AuthRequest.mkResult false None
          (Some "No authentication token provided")
    | Some t =>
        match verifyToken now t with
        | Return payload => AuthRequest.mkResult true (Some payload) None
        | Throw _ =>
            AuthRequest.mkResult false None
              (Some "Invalid or expired authentication token")
        end
    end.
Proof.
  unfold AuthRequest.verifyAuthentication.
  destruct (AuthRequest.cookies request !! "auth-token")
    as [[jws|[|a raw]]|]; cbn; try reflexivity.
  destruct (verifyToken now (Compact jws)) as [p|e] eqn:Hv; cbn;
    [reflexivity|].
  apply verifyToken_Throw in Hv. by subst e.
Qed.

(** X3.  [verifyAuthentication] reports a request as authenticated exactly
    when it carries an 'auth-token' cookie that [verifyToken] accepts, and
    then hands out the payload of that token; [checkAuth] and
    [getCurrentUser] agree with it.  Without the cookie, or with an empty
    one, the error is 'No authentication token provided'; with a cookie
    that is refused it is 'Invalid or expired authentication token'. *)
Theorem verifyAuthentication_spec now request :
  let result := AuthRequest.verifyAuthentication now request in
  let authToken := AuthRequest.cookies request !! "auth-token" in
  (forall payload,
      (exists t, authToken = Some t /\ verifyToken now t = Return payload)
      <-> result = AuthRequest.mkResult true (Some payload) None)
  /\ (AuthRequest.checkAuth now request = true
      <-> exists t payload,
            authToken = Some t /\ verifyToken now t = Return payload)
  /\ (AuthRequest.getCurrentUser now request
      = match authToken with
        | Some t =>
            match verifyToken now t with
            | Return payload => Some payload
            | Throw _ => None
            end
        | None => None
        end)
  /\ (authToken = None \/ authToken = Some (Malformed "") ->
      result
      = AuthRequest.mkResult false None
          (Some "No authentication token provided"))
  /\ (forall t e,
        authToken = Some t -> t <> Malformed "" ->
        verifyToken now t = Throw e ->
        result
        = AuthRequest.mkResult false None
            (Some "Invalid or expired authentication token")).
Proof.
  intros result authToken. subst result authToken.
  unfold AuthRequest.checkAuth, AuthRequest.getCurrentUser.
  rewrite verifyAuthentication_cases.
  destruct (AuthRequest.cookies request !! "auth-token")
    as [[jws|[|a raw]]|] eqn:Hc.
  - destruct (verifyToken now (Compact jws)) as [p|e] eqn:Hv; cbn.
    + split; [|split; [|split; [|split]]].
      * intros payload. split.
        -- intros (t & [= <-] & Hv'). rewrite Hv in Hv'. by injection Hv' as <-.
        -- intros [= <-]. eauto.
      * split; [eauto | done].
      * reflexivity.
      * intros [[=] | [=]].
      * intros t e [= <-] _ Hv'. rewrite Hv in Hv'. discriminate.
    + split; [|split; [|split; [|split]]].
      * intros payload. split; [|discriminate].
        intros (t & [= <-] & Hv'). rewrite Hv in Hv'. discriminate.
      * split; [discriminate|].
        intros (t & p & [= <-] & Hv'). rewrite Hv in Hv'. discriminate.
      * reflexivity.
      * intros [[=] | [=]].
      * reflexivity.
  - cbn. split; [|split; [|split; [|split]]].
    + intros payload. split; [|discriminate].
      intros (t & [= <-] & Hv'). discriminate.
    + split; [discriminate|].
      intros (t & p & [= <-] & Hv'). discriminate.
    + reflexivity.
    + reflexivity.
    + intros t e [= <-] Hne. done.
  - destruct (verifyToken now (Malformed (String a raw))) as [p|e] eqn:Hv;
      cbn.
    + split; [|split; [|split; [|split]]].
      * intros payload. split.
        -- intros (t & [= <-] & Hv'). rewrite Hv in Hv'. by injection Hv' as <-.
        -- intros [= <-]. eauto.
      * split; [eauto | done].
      * reflexivity.
      * intros [[=] | [=]].
      * intros t e [= <-] _ Hv'. rewrite Hv in Hv'. discriminate.
    + split; [|split; [|split; [|split]]].
      * intros payload. split; [|discriminate].
        intros (t & [= <-] & Hv'). rewrite Hv in Hv'. discriminate.
      * split; [discriminate|].
        intros (t & p & [= <-] & Hv'). rewrite Hv in Hv'. discriminate.
      * reflexivity.
      * intros [[=] | [=]].
      * reflexivity.
  - cbn. split; [|split; [|split; [|split]]].
    + intros payload. split; [|discriminate]. intros (t & [=] & _).
    + split; [discriminate|]. intros (t & p & [=] & _).
    + reflexivity.
    + reflexivity.
    + intros t e [=].
Qed.

Lemma verifyAuthentication_spec_witness :
  AuthRequest.verifyAuthentication 1000
    (AuthRequest.mkRequest {[ "auth-token" := Malformed "" ]})
  = AuthRequest.mkResult false None
      (Some "No authentication token provided")
  /\ AuthRequest.verifyAuthentication 1000
       (AuthRequest.mkRequest {[ "auth-token" := Malformed "abc" ]})
     = AuthRequest.mkResult false None
         (Some "Invalid or expired authentication token").
Proof.
  pose proof (verifyAuthentication_spec 1000
                (AuthRequest.mkRequest {[ "auth-token" := Malformed "" ]}))
    as (_ & _ & _ & Hnone & _).
  pose proof (verifyAuthentication_spec 1000
                (AuthRequest.mkRequest {[ "auth-token" := Malformed "abc" ]}))
    as (_ & _ & _ & _ & Hbad).
  split.
  - apply Hnone. right. reflexivity.
  - apply (Hbad (Malformed "abc")
             (mkError "Invalid or expired authentication token")).
    + reflexivity.
    + discriminate.
    + reflexivity.
Defined.

(** X4.  The dashboard page renders for a user exactly when the request
    carries an 'auth-token' cookie that [verifyToken] accepts, and it
    renders the payload of that token; in every other case (no cookie, an
    empty, forged or expired one) it redirects to '/auth/login'. *)
Theorem DashboardPage_spec now (cookies : gmap string Token) :
  (forall payload,
      Dashboard.DashboardPage now cookies = Dashboard.render payload
      <-> exists t,
            cookies !! "auth-token" = Some t
            /\ verifyToken now t = Return payload)
  /\ ((forall t payload,
         cookies !! "auth-token" = Some t ->
         verifyToken now t <> Return payload) ->
      Dashboard.DashboardPage now cookies
      = Dashboard.redirect "/auth/login").
Proof.
  unfold Dashboard.DashboardPage.
  destruct (cookies !! "auth-token") as [[jws|[|a raw]]|] eqn:Hc; cbn.
  - destruct (verifyToken now (Compact jws)) as [p|e] eqn:Hv.
    + split.
      * intros payload. split.
        -- intros [= <-]. eauto.
        -- intros (t & [= <-] & Hv'). rewrite Hv in Hv'. by injection Hv' as <-.
      * intros Hno. by destruct (Hno _ p eq_refl).
    + split; [|done].
      intros payload. split; [discriminate|].
      intros (t & [= <-] & Hv'). rewrite Hv in Hv'. discriminate.
  - split; [|done].
    intros payload. split; [discriminate|].
    intros (t & [= <-] & Hv'). discriminate.
  - split; [|done].
    intros payload. split; [discriminate|].
    intros (t & [= <-] & Hv'). discriminate.
  - split; [|done].
    intros payload. split; [discriminate|].
    intros (t & [=] & _).
Qed.

Lemma DashboardPage_spec_witness :
  Dashboard.DashboardPage 1000 {[ "auth-token" := Malformed "x.y.z" ]}
  = Dashboard.redirect "/auth/login".
Proof.
  apply (proj2 (DashboardPage_spec 1000
                  {[ "auth-token" := Malformed "x.y.z" ]})).
  intros t payload Ht. vm_compute in Ht. injection Ht as <-. discriminate.
Defined.

(** [authenticate], by the outcome of [findUser]. *)
Lemma authenticate_cases now username password :
  Auth.authenticate now username password
  = match findUser username password with
    | Some user =>
        match generateToken now (Int (Jwt.id user)) (Jwt.username user)
                (Jwt.role user) with
        | Return token =>
            setAuthCookie
              (NextResponse_json
                 (Auth.AuthSuccess "Authentication successful"
                    (Some (Auth.mkUserInfo (Jwt.id user) (Jwt.username user)
                             (Jwt.role user))))
                 200)
              token
        | Throw e => NextResponse_json (Auth.AuthFailure (error_message e)) 401
        end
    | None =>
        NextResponse_json (Auth.AuthFailure "Invalid username or password") 401
    end.
Proof.
  unfold Auth.authenticate. by destruct (findUser username password).
Qed.

Lemma authenticate_status now username password :
  (status (Auth.authenticate now username password) = 200%Z
   <-> credentials_match username password)
  /\ (status (Auth.authenticate now username password) = 200%Z
      \/ Auth.authenticate now username password
         = NextResponse_json
             (Auth.AuthFailure "Invalid username or password") 401).
Proof.
  rewrite authenticate_cases.
  destruct (findUser username password) as [user|] eqn:Hfind.
  - destruct (generateToken_Return now (Int (Jwt.id user))
                (Jwt.username user) (Jwt.role user)) as (token & -> & _).
    cbn. split; [|by left]. split; [|done]. intros _.
    exists user. by apply findUser_Some.
  - split; [|by right]. cbn. split; [discriminate|].
    intros Hm. by apply findUser_None in Hfind.
Qed.

Lemma credentials_nonempty username password :
  credentials_match username password -> username <> "" /\ password <> "".
Proof.
  intros (user & Hin & <- & <-). revert Hin.
  unfold mockUsers. rewrite !elem_of_cons, elem_of_nil.
  intros [-> | [-> | []]]; by split.
Qed.

(** The login handler, case by case. *)
Lemma login_POST_cases now body :
  LoginRoute.POST now body
  = match body with
    | None | Some Posts.JNull =>
        NextResponse_json (Auth.AuthFailure "Login failed") 500
    | Some (Posts.JObject fields) =>
        if LoginRoute.falsy (fields !! "username")
           || LoginRoute.falsy (fields !! "password")
        then NextResponse_json
               (Auth.AuthFailure "Username and password are required") 400
        else
          match fields !! "username", fields !! "password" with
          | Some (Posts.JString u), Some (Posts.JString p) =>
              Auth.authenticate now u p
          | _, _ =>
              NextResponse_json
                (Auth.AuthFailure "Invalid username or password") 401
          end
    | Some _ =>
        NextResponse_json
          (Auth.AuthFailure "Username and password are required") 400
    end.
Proof.
  unfold LoginRoute.POST.
  destruct body as [[| | | | |fields]|]; try reflexivity.
  cbn.
  destruct (fields !! "username") as [[| | |u| |]|];
    destruct (fields !! "password") as [[| | |p| |]|];
    cbn; repeat case_bool_decide; cbn; try reflexivity;
    repeat match goal with
           | |- context [negb ?b] => destruct b; cbn
           end; reflexivity.
Qed.

Lemma no_cookie_in_json {B} (body : B) st :
  ~ has_header "Set-Cookie" (NextResponse_json body st).
Proof.
  intros [value Hv]. cbn in Hv.
  apply list_elem_of_singleton in Hv. discriminate.
Qed.

(** X5.  The login route answers 200 exactly when the body is a JSON
    object whose username and password are strings that are the credentials
    of a mock user, and its answer is then the one of [authenticate].
    Every other answer has success false and sets no cookie; it is 500
    exactly when the body is not JSON or is null, and otherwise 400 or
    401. *)
Theorem login_POST_spec now body :
  let r := LoginRoute.POST now body in
  (status r = 200%Z
   <-> exists fields u p,
         body = Some (Posts.JObject fields)
         /\ fields !! "username" = Some (Posts.JString u)
         /\ fields !! "password" = Some (Posts.JString p)
         /\ credentials_match u p)
  /\ (forall fields u p,
        body = Some (Posts.JObject fields) ->
        fields !! "username" = Some (Posts.JString u) ->
        fields !! "password" = Some (Posts.JString p) ->
        credentials_match u p ->
        r = Auth.authenticate now u p)
  /\ (status r <> 200%Z ->
      Auth.success (json r) = false /\ ~ has_header "Set-Cookie" r)
  /\ (status r = 500%Z <-> body = None \/ body = Some Posts.JNull)
  /\ (status r = 200%Z \/ status r = 400%Z
      \/ status r = 401%Z \/ status r = 500%Z).
Proof.
  intros r. subst r. rewrite login_POST_cases.
  assert (Hobj : forall (fields : gmap string Posts.JSON) u p,
             fields !! "username" = Some (Posts.JString u) ->
             fields !! "password" = Some (Posts.JString p) ->
             credentials_match u p ->
             (if LoginRoute.falsy (fields !! "username")
                 || LoginRoute.falsy (fields !! "password")
              then NextResponse_json
                     (Auth.AuthFailure "Username and password are required")
                     400
              else
                match fields !! "username", fields !! "password" with
                | Some (Posts.JString u), Some (Posts.JString p) =>
                    Auth.authenticate now u p
                | _, _ =>
                    NextResponse_json
                      (Auth.AuthFailure "Invalid username or password") 401
                end)
             = Auth.authenticate now u p).
  { intros fields u p -> -> Hm.
    destruct (credentials_nonempty _ _ Hm) as [Hu Hp]. cbn.
    by rewrite !bool_decide_eq_false_2. }
  destruct body as [[|b|n|str|items|fields]|];
    try (repeat split;
         try (intros (? & ? & ? & [=] & _)); try discriminate;
         try (intros ? ? ? [=]); try apply no_cookie_in_json;
         try (intros [[=] | [=]]); cbn; auto; fail).
  destruct (LoginRoute.falsy (fields !! "username")
            || LoginRoute.falsy (fields !! "password")) eqn:Hfalsy.
  - split; [|split; [|split; [|split]]].
    + split; [discriminate|].
      intros (fields' & u & p & [= <-] & Hu & Hp & Hm).
      destruct (credentials_nonempty _ _ Hm) as [Hu' Hp'].
      rewrite Hu, Hp in Hfalsy. cbn in Hfalsy.
      by rewrite !bool_decide_eq_false_2 in Hfalsy.
    + intros fields' u p [= <-] Hu Hp Hm.
      rewrite <- (Hobj fields u p Hu Hp Hm). by rewrite Hfalsy.
    + intros _. split; [reflexivity | apply no_cookie_in_json].
    + split; [discriminate | intros [[=] | [=]]].
    + cbn. auto.
  - destruct (fields !! "username") as [[| | |u| |]|] eqn:Hu;
      destruct (fields !! "password") as [[| | |p| |]|] eqn:Hp;
      try (repeat split;
           try (intros (? & ? & ? & [= <-] & Hu' & Hp' & _));
           try (intros ? ? ? [= <-] Hu' Hp' _);
           try discriminate; try congruence;
           try apply no_cookie_in_json;
           try (intros [[=] | [=]]); cbn; auto; fail).
    destruct (authenticate_status now u p) as [Hiff Hor].
    split; [|split; [|split; [|split]]].
    + rewrite Hiff. split.
      * intros Hm. by exists fields, u, p.
      * intros (fields' & u' & p' & [= <-] & Hu' & Hp' & Hm).
        rewrite Hu in Hu'. rewrite Hp in Hp'.
        injection Hu' as <-. injection Hp' as <-. done.
    + intros fields' u' p' [= <-] Hu' Hp' _.
      rewrite Hu in Hu'. rewrite Hp in Hp'.
      by injection Hu' as <-; injection Hp' as <-.
    + intros Hne. destruct Hor as [H200 | ->]; [done|].
      split; [reflexivity | apply no_cookie_in_json].
    + destruct Hor as [H200 | ->].
      * rewrite H200. split; [discriminate | intros [[=] | [=]]].
      * split; [discriminate | intros [[=] | [=]]].
    + destruct Hor as [H200 | ->]; cbn; auto.
Qed.

Lemma login_POST_spec_witness :
  LoginRoute.POST 1000
    (Some (Posts.JObject {[ "username" := Posts.JString "admin";
                            "password" := Posts.JString "admin123" ]}))
  = Auth.authenticate 1000 "admin" "admin123"
  /\ status (LoginRoute.POST 1000
               (Some (Posts.JObject
                        {[ "username" := Posts.JString "admin";
                           "password" := Posts.JString "admin123" ]})))
     = 200%Z.
Proof.
  destruct (login_POST_spec 1000
              (Some (Posts.JObject
                       {[ "username" := Posts.JString "admin";
                          "password" := Posts.JString "admin123" ]})))
    as (Hiff & Hauth & _).
  assert (Hm : credentials_match "admin" "admin123").
  { exists (mkUser 2 "admin" "admin123" "admin").
    split; [|split; reflexivity].
    apply elem_of_cons. right. apply elem_of_cons. left. reflexivity. }
  split.
  - apply (Hauth {[ "username" := Posts.JString "admin";
                    "password" := Posts.JString "admin123" ]}
             "admin" "admin123"); [reflexivity | reflexivity | reflexivity | exact Hm].
  - apply Hiff.
    exists {[ "username" := Posts.JString "admin";
              "password" := Posts.JString "admin123" ]}, "admin", "admin123".
    repeat split; try reflexivity. exact Hm.
Defined.

(** X6.  The whole login flow.  Posting the name and password of a mock
    user to the login route yields a Set-Cookie header with a token; a
    later request that carries this token as its 'auth-token' cookie, less
    than 3600 seconds after the login, is reported authenticated by
    [verifyAuthentication] and rendered by the dashboard page, in both
    cases with the id, name and role of that user. *)
Theorem login_flow now now' user (fields : gmap string Posts.JSON) :
  user ∈ mockUsers ->
  fields !! "username" = Some (Posts.JString (Jwt.username user)) ->
  fields !! "password" = Some (Posts.JString (Jwt.password user)) ->
  (now' < now + 3600)%Z ->
  exists token payload,
    ("Set-Cookie",
     [Lit "auth-token="; Tok token;
      Lit "; Path=/; HttpOnly; SameSite=Lax; Max-Age=3600"])
    ∈ headers (LoginRoute.POST now (Some (Posts.JObject fields)))
    /\ claim_userId payload = Some (JSONInt (Jwt.id user))
    /\ claim_username payload = Some (Jwt.username user)
    /\ claim_role payload = Some (Jwt.role user)
    /\ (forall request,
          AuthRequest.cookies request !! "auth-token" = Some token ->
          AuthRequest.verifyAuthentication now' request
          = AuthRequest.mkResult true (Some payload) None)
    /\ (forall cookies : gmap string Token,
          cookies !! "auth-token" = Some token ->
          Dashboard.DashboardPage now' cookies = Dashboard.render payload).
Proof.
  intros Hin Hu Hp Hfresh.
  assert (Hm : credentials_match (Jwt.username user) (Jwt.password user))
    by (exists user; done).
  destruct (credentials_nonempty _ _ Hm) as [Hune Hpne].
  destruct (generateToken_Return now (Int (Jwt.id user)) (Jwt.username user)
              (Jwt.role user)) as (token & Hgen & Hsign).
  assert (Hverify :
    verifyToken now' token
    = Return {| claim_userId := Some (JSONInt (Jwt.id user));
                claim_username := Some (Jwt.username user);
                claim_role := Some (Jwt.role user);
                iat := Some now;
                iss := Some JWT_CONFIG.issuer;
                aud := Some JWT_CONFIG.audience;
                exp := Some (now + JWT_CONFIG.expiresIn_secs)%Z;
                nbf := None |}).
  { unfold verifyToken.
    rewrite (jwtVerify_SignJWT _ _ _ _ _ _ _ _ _ _ Hsign).
    unfold JWT_CONFIG.expiresIn_secs.
    by rewrite bool_decide_eq_false_2 by lia. }
  assert (Htok : exists jws, token = Compact jws).
  { unfold SignJWT in Hsign. rewrite hmac_alg_HS256 in Hsign.
    injection Hsign as <-. eauto. }
  destruct Htok as [jws ->].
  exists (Compact jws).
  exists {| claim_userId := Some (JSONInt (Jwt.id user));
            claim_username := Some (Jwt.username user);
            claim_role := Some (Jwt.role user);
            iat := Some now;
            iss := Some JWT_CONFIG.issuer;
            aud := Some JWT_CONFIG.audience;
            exp := Some (now + JWT_CONFIG.expiresIn_secs)%Z;
            nbf := None |}.
  split; [|split; [|split; [|split; [|split]]]].
  - rewrite login_POST_cases, Hu, Hp. cbn [LoginRoute.falsy].
    rewrite !bool_decide_eq_false_2 by assumption. cbn [orb].
    rewrite authenticate_cases, (findUser_mock _ Hin), Hgen.
    cbn. apply elem_of_cons. right. apply elem_of_cons. left. reflexivity.
  - reflexivity.
  - reflexivity.
  - reflexivity.
  - intros request Hc. rewrite verifyAuthentication_cases, Hc, Hverify.
    reflexivity.
  - intros cookies Hc. unfold Dashboard.DashboardPage.
    rewrite Hc. cbn [AuthRequest.missing]. by rewrite Hverify.
Qed.

Lemma login_flow_witness :
  exists token payload,
    ("Set-Cookie",
     [Lit "auth-token="; Tok token;
      Lit "; Path=/; HttpOnly; SameSite=Lax; Max-Age=3600"])
    ∈ headers
        (LoginRoute.POST 1000
           (Some (Posts.JObject
                    {[ "username" := Posts.JString "demo";
                       "password" := Posts.JString "password123" ]})))
    /\ claim_userId payload = Some (JSONInt 1)
    /\ claim_username payload = Some "demo"
    /\ claim_role payload = Some "user"
    /\ (forall request,
          AuthRequest.cookies request !! "auth-token" = Some token ->
          AuthRequest.verifyAuthentication 2000 request
          = AuthRequest.mkResult true (Some payload) None)
    /\ (forall cookies : gmap string Token,
          cookies !! "auth-token" = Some token ->
          Dashboard.DashboardPage 2000 cookies = Dashboard.render payload).
Proof.
  apply (login_flow 1000 2000 (mkUser 1 "demo" "password123" "user")
           {[ "username" := Posts.JString "demo";
              "password" := Posts.JString "password123" ]}).
  - apply elem_of_cons. left. reflexivity.
  - reflexivity.
  - reflexivity.
  - lia.
Defined.

End AuthFlowFacts.

(** ** More on route gating *)

Section MiddlewareFlowFacts.
Import Middleware.



(** X8.  Outside the protected routes the cookie decides nothing but the
    login page: a request for '/auth/login' with a non-empty 'auth-token'
    cookie is redirected to '/dashboard' on the same origin, without a
    query; every other request for a path that is not protected is let
    through, with or without a cookie. *)
Theorem middleware_unprotected request :
  ~ protected (pathname (nextUrl request)) ->
  (pathname (nextUrl request) = "/auth/login" ->
   forall value,
     cookies request !! "auth-token" = Some value -> value <> "" ->
     middleware request
     = redirect {| origin := origin (url request);
                   pathname := "/dashboard";
                   searchParams := [] |})
  /\ (pathname (nextUrl request) = "/auth/login" ->
      cookies request !! "auth-token" = None
      \/ cookies request !! "auth-token" = Some "" ->
      middleware request = next)
  /\ (pathname (nextUrl request) <> "/auth/login" ->
      middleware request = next).
Proof.
  intros Hnp. unfold middleware.
  assert (startsWith (pathname (nextUrl request)) "/dashboard"
          || startsWith (pathname (nextUrl request)) "/auth/protected"
          = false) as ->.
  { apply orb_false_iff. unfold protected in Hnp.
    split; apply not_true_iff_false; tauto. }
  cbn [andb]. split; [|split].
  - intros Hlogin value -> Hv.
    rewrite bool_decide_eq_true_2 by assumption.
    unfold truthy. by rewrite bool_decide_eq_false_2.
  - intros Hlogin [-> | ->]; cbn; by rewrite andb_false_r.
  - intros Hother. by rewrite bool_decide_eq_false_2.
Qed.

Lemma middleware_unprotected_witness :
  middleware (mkRequest (mkURL "http://localhost:3000" "/auth/login" [])
                (mkURL "http://localhost:3000" "/auth/login" [])
                {[ "auth-token" := "anything" ]})
  = redirect (mkURL "http://localhost:3000" "/dashboard" [])
  /\ middleware (mkRequest (mkURL "http://localhost:3000" "/cache" [])
                   (mkURL "http://localhost:3000" "/cache" []) ∅)
     = next.
Proof.
  split.
  - apply (proj1 (middleware_unprotected
                    (mkRequest (mkURL "http://localhost:3000" "/auth/login" [])
                       (mkURL "http://localhost:3000" "/auth/login" [])
                       {[ "auth-token" := "anything" ]})
                    ltac:(intros [H | H]; vm_compute in H; discriminate))
             eq_refl "anything").
    + reflexivity.
    + discriminate.
  - apply (proj2 (proj2 (middleware_unprotected
                           (mkRequest (mkURL "http://localhost:3000" "/cache" [])
                              (mkURL "http://localhost:3000" "/cache" []) ∅)
                           ltac:(intros [H | H]; vm_compute in H; discriminate)))).
    discriminate.
Defined.

End MiddlewareFlowFacts.

(** ** More on the posts handlers *)

Section PostsMoreFacts.
Import Posts.
Variable Number : string -> option Z.

(** The first match of an id, from the shape of the list. *)
Lemma findIndex_middle id l1 post l2 :
  Forall (fun q => Number id <> Some (Posts.id q)) l1 ->
  Number id = Some (Posts.id post) ->
  findIndex Number id (l1 ++ post :: l2) = Some (length l1, post).
Proof.
  intros Hfirst Hid. unfold findIndex. apply list_find_Some.
  split; [by apply list_lookup_middle|]. split; [exact Hid|].
  intros j q Hj Hlt. rewrite lookup_app_l in Hj by assumption.
  by apply (proj1 (Forall_lookup _ _) Hfirst j q).
Qed.

(** What a PUT can do: replace the first match, or fail and change
    nothing. *)
Lemma PUT_outcome request mockPosts :
  (exists id b validated l1 post l2,
      searchParams_get (searchParams request) "id" = Some id
      /\ id <> ""
      /\ body request = Some b
      /\ postSchema_parse b = Return validated
      /\ mockPosts = l1 ++ post :: l2
      /\ Number id = Some (Posts.id post)
      /\ Forall (fun q => Number id <> Some (Posts.id q)) l1
      /\ PUT Number request mockPosts
         = (mkResponse 200
              (Success
                 (OnePost (mkPost (Posts.id post) (input_title validated)
                             (input_content validated)))
                 "Post updated successfully"),
            l1 ++ mkPost (Posts.id post) (input_title validated)
                    (input_content validated) :: l2))
  \/ (success (json (fst (PUT Number request mockPosts))) = false
      /\ snd (PUT Number request mockPosts) = mockPosts).
Proof.
  unfold PUT, request_json.
  destruct (searchParams_get _ _) as [[|a s]|] eqn:Hid;
    try (right; split; reflexivity).
  destruct (body request) as [b|] eqn:Hb; cbn [bindE catchE];
    [|right; split; reflexivity].
  destruct (postSchema_parse b) as [validated|[issues|]] eqn:Hparse;
    cbn [bindE catchE]; try (right; split; reflexivity).
  destruct (findIndex _ _ _) as [[postIndex post]|] eqn:Hfind;
    cbn [catchE]; [|right; split; reflexivity].
  left. apply findIndex_Some in Hfind
    as (l1 & l2 & Heq & _ & Hmatch & Hfirst & Hins & _).
  exists (String a s), b, validated, l1, post, l2.
  rewrite Hins. done.
Qed.

(** What a DELETE can do: remove the first match, or fail and change
    nothing. *)
Lemma DELETE_outcome request mockPosts :
  (exists id l1 post l2,
      searchParams_get (searchParams request) "id" = Some id
      /\ id <> ""
      /\ mockPosts = l1 ++ post :: l2
      /\ Number id = Some (Posts.id post)
      /\ Forall (fun q => Number id <> Some (Posts.id q)) l1
      /\ DELETE Number request mockPosts
         = (mkResponse 200
              (Success (OnePost post) "Post deleted successfully"),
            l1 ++ l2))
  \/ (success (json (fst (DELETE Number request mockPosts))) = false
      /\ snd (DELETE Number request mockPosts) = mockPosts).
Proof.
  unfold DELETE.
  destruct (searchParams_get _ _) as [[|a s]|] eqn:Hid;
    try (right; split; reflexivity).
  destruct (findIndex _ _ _) as [[postIndex post]|] eqn:Hfind;
    [|right; split; reflexivity].
  left. apply findIndex_Some in Hfind
    as (l1 & l2 & Heq & _ & Hmatch & Hfirst & _ & Hdel).
  exists (String a s), l1, post, l2. rewrite Hdel. done.
Qed.

(** What a POST can do: append a post made from a validated body, or fail
    and change nothing. *)
Lemma POST_outcome request mockPosts :
  (exists b validated,
      body request = Some b
      /\ postSchema_parse b = Return validated
      /\ POST request mockPosts
         = (mkResponse 201
              (Success
                 (OnePost (mkPost (Z.of_nat (length mockPosts) + 1)
                             (input_title validated)
                             (input_content validated)))
                 "Post created successfully"),
            mockPosts
            ++ [mkPost (Z.of_nat (length mockPosts) + 1)
                  (input_title validated) (input_content validated)]))
  \/ (success (json (fst (POST request mockPosts))) = false
      /\ snd (POST request mockPosts) = mockPosts).
Proof.
  unfold POST, request_json.
  destruct (body request) as [b|] eqn:Hb; cbn [bindE catchE];
    [|right; split; reflexivity].
  destruct (postSchema_parse b) as [validated|[issues|]] eqn:Hparse;
    cbn [bindE catchE]; try (right; split; reflexivity).
  left. by exists b, validated.
Qed.

(** X9.  PUT never changes which ids are stored, nor their order, nor the
    number of posts, whatever the request and whatever the answer. *)
Theorem PUT_keeps_ids request mockPosts :
  Posts.id <$> snd (PUT Number request mockPosts) = Posts.id <$> mockPosts
  /\ length (snd (PUT Number request mockPosts)) = length mockPosts.
Proof.
  assert (Hids : Posts.id <$> snd (PUT Number request mockPosts)
                 = Posts.id <$> mockPosts).
  { destruct (PUT_outcome request mockPosts)
      as [(id & b & v & l1 & post & l2 & _ & _ & _ & _ & -> & _ & _ & ->)
         | [_ ->]]; [|reflexivity].
    cbn [snd]. by rewrite !fmap_app, !fmap_cons. }
  split; [exact Hids|].
  by rewrite <- (length_fmap Posts.id), Hids, length_fmap.
Qed.

(** X10.  PUT and DELETE keep the stored ids distinct: if no two stored
    posts share an id before the call, none do after it. *)
Theorem PUT_DELETE_keep_ids_distinct request mockPosts :
  NoDup (Posts.id <$> mockPosts) ->
  NoDup (Posts.id <$> snd (PUT Number request mockPosts))
  /\ NoDup (Posts.id <$> snd (DELETE Number request mockPosts)).
Proof.
  intros Hnodup. split.
  - destruct (PUT_outcome request mockPosts)
      as [(id & b & v & l1 & post & l2 & _ & _ & _ & _ & Heq & _ & _ & ->)
         | [_ ->]]; [|exact Hnodup].
    cbn [snd]. subst mockPosts.
    by rewrite !fmap_app, !fmap_cons in *.
  - destruct (DELETE_outcome request mockPosts)
      as [(id & l1 & post & l2 & _ & _ & Heq & _ & _ & ->) | [_ ->]];
      [|exact Hnodup].
    cbn [snd]. subst mockPosts.
    rewrite !fmap_app, !fmap_cons in *.
    assert (Hsub : (Posts.id <$> l1) ++ (Posts.id <$> l2)
                   `sublist_of`
                   (Posts.id <$> l1) ++ Posts.id post :: (Posts.id <$> l2)).
    { apply sublist_app; [reflexivity|]. by apply sublist_cons. }
    exact (sublist_NoDup _ _ Hnodup Hsub).
Qed.

(** X11.  When the stored ids are distinct, a successful DELETE leaves no
    post with the deleted id, so the same DELETE made again answers 404
    'Post not found' and changes nothing. *)
Theorem DELETE_twice request mockPosts response mockPosts' :
  NoDup (Posts.id <$> mockPosts) ->
  DELETE Number request mockPosts = (response, mockPosts') ->
  status response = 200%Z ->
  (exists id,
      searchParams_get (searchParams request) "id" = Some id
      /\ Forall (fun q => Number id <> Some (Posts.id q)) mockPosts')
  /\ DELETE Number request mockPosts'
     = (mkResponse 404 (Failure "Post not found" NoDetails), mockPosts').
Proof.
  intros Hnodup Hdel Hok.
  destruct (DELETE_outcome request mockPosts)
    as [(id & l1 & post & l2 & Hid & Hne & -> & Hmatch & Hfirst & Heq)
       | [Hfail Hsame]].
  - rewrite Heq in Hdel. injection Hdel as <- <-.
    assert (Hgone : Forall (fun q => Number id <> Some (Posts.id q))
                      (l1 ++ l2)).
    { apply Forall_app. split; [exact Hfirst|].
      apply Forall_forall. intros q Hq Hmatch'.
      rewrite Hmatch in Hmatch'. injection Hmatch' as Hsame.
      rewrite fmap_app, fmap_cons in Hnodup.
      apply NoDup_app in Hnodup as (_ & _ & Hnodup).
      apply NoDup_cons in Hnodup as [Hnotin _].
      apply Hnotin. rewrite Hsame. by apply list_elem_of_fmap_2. }
    split; [by exists id|].
    unfold DELETE. rewrite Hid.
    destruct id as [|a s]; [done|].
    by rewrite (proj2 (findIndex_None Number _ _) Hgone).
  - rewrite Hdel in Hfail. cbn in Hfail.
    unfold DELETE in Hdel.
    destruct (searchParams_get _ _) as [[|a s]|];
      try (injection Hdel as <- <-; discriminate).
    destruct (findIndex _ _ _) as [[i p]|];
      injection Hdel as <- <-; discriminate.
Qed.

(** X12.  Creating a post and deleting it again gives back the stored list
    as it was, provided the id given to the new post, the length plus one,
    was not in use: the DELETE answers 200 with the post just created. *)
Theorem POST_then_DELETE create delete mockPosts response mockPosts' id :
  POST create mockPosts = (response, mockPosts') ->
  status response = 201%Z ->
  searchParams_get (searchParams delete) "id" = Some id ->
  id <> "" ->
  Number id = Some (Z.of_nat (length mockPosts) + 1)%Z ->
  Forall (fun q => Posts.id q <> (Z.of_nat (length mockPosts) + 1)%Z)
    mockPosts ->
  exists newPost,
    json response = Success (OnePost newPost) "Post created successfully"
    /\ DELETE Number delete mockPosts'
       = (mkResponse 200
            (Success (OnePost newPost) "Post deleted successfully"),
          mockPosts).
Proof.
  intros Hpost Hok Hid Hne Hnum Hfree.
  destruct (POST_outcome create mockPosts)
    as [(b & validated & _ & _ & Heq) | [Hfail _]].
  - rewrite Heq in Hpost. injection Hpost as <- <-.
    eexists. split; [reflexivity|].
    unfold DELETE. rewrite Hid. destruct id as [|a s]; [done|].
    rewrite findIndex_middle.
    + rewrite delete_middle. by rewrite app_nil_r.
    + eapply Forall_impl; [exact Hfree|]. cbn. intros q Hq Hmatch.
      rewrite Hnum in Hmatch. congruence.
    + exact Hnum.
  - rewrite Hpost in Hfail. cbn in Hfail.
    unfold POST, request_json in Hpost.
    destruct (body create) as [b|]; cbn in Hpost;
      [|injection Hpost as <- <-; discriminate].
    destruct (postSchema_parse b) as [v|[issues|]]; cbn in Hpost;
      injection Hpost as <- <-; discriminate.
Qed.

(** X13.  PUT is idempotent: making the same PUT a second time gives the
    same answer and leaves the list as the first one left it. *)
Theorem PUT_idempotent request mockPosts :
  PUT Number request (snd (PUT Number request mockPosts))
  = PUT Number request mockPosts.
Proof.
  destruct (PUT_outcome request mockPosts)
    as [(id & b & v & l1 & post & l2
         & Hid & Hne & Hb & Hparse & -> & Hmatch & Hfirst & Heq)
       | [_ Hsame]].
  - rewrite Heq. cbn [snd].
    unfold PUT, request_json. rewrite Hid. destruct id as [|a s]; [done|].
    rewrite Hb. cbn [bindE]. rewrite Hparse. cbn [bindE].
    rewrite findIndex_middle by assumption.
    cbn [catchE Posts.id].
    rewrite !insert_app_r_alt, Nat.sub_diag by lia. reflexivity.
  - by rewrite Hsame.
Qed.

(** X14.  Every post the handlers store is within the bounds of the
    schema: starting from the initial list, after any sequence of GET,
    POST, PUT and DELETE calls, every stored post has a title of 3 to 100
    characters and a content of 10 to 1000 characters. *)
Theorem stored_posts_within_schema calls :
  Forall PostsCalls.within_schema (PostsCalls.run Number calls mockPosts).
Proof.
  assert (Hinit : Forall PostsCalls.within_schema mockPosts).
  { unfold mockPosts, PostsCalls.within_schema.
    repeat constructor; cbn; lia. }
  unfold PostsCalls.run. revert Hinit. generalize mockPosts.
  induction calls as [|c calls IH]; intros posts Hposts; [exact Hposts|].
  cbn [fold_left]. apply IH. clear IH.
  assert (Hvalid : forall b validated,
             postSchema_parse b = Return validated ->
             forall i,
               PostsCalls.within_schema
                 (mkPost i (input_title validated) (input_content validated))).
  { intros b validated Hparse i.
    apply postSchema_parse_Return in Hparse as (_ & _ & _ & _ & Ht & Hc).
    by split. }
  destruct c as [|request|request|request]; cbn [PostsCalls.handle].
  - exact Hposts.
  - destruct (POST_outcome request posts)
      as [(b & validated & _ & Hparse & ->) | [_ ->]]; [|exact Hposts].
    cbn [snd]. apply Forall_app. split; [exact Hposts|].
    constructor; [|constructor]. by eapply Hvalid.
  - destruct (PUT_outcome request posts)
      as [(id & b & v & l1 & post & l2
           & _ & _ & _ & Hparse & -> & _ & _ & ->) | [_ ->]];
      [|exact Hposts].
    cbn [snd]. apply Forall_app in Hposts as [H1 H2].
    apply Forall_cons in H2 as [_ H2].
    apply Forall_app. split; [exact H1|].
    constructor; [by eapply Hvalid | exact H2].
  - destruct (DELETE_outcome request posts)
      as [(id & l1 & post & l2 & _ & _ & -> & _ & _ & ->) | [_ ->]];
      [|exact Hposts].
    cbn [snd]. apply Forall_app in Hposts as [H1 H2].
    apply Forall_cons in H2 as [_ H2].
    apply Forall_app. by split.
Qed.

End PostsMoreFacts.

Section PostsMoreWitnesses.
Import Posts.

Lemma PUT_DELETE_keep_ids_distinct_witness :
  NoDup (Posts.id <$>
           snd (PUT Number_int
                  (mkRequest [("id", "2")]
                     (Some (JObject {[ "title" := JString "Edited";
                                       "content" := JString "Edited content" ]})))
                  mockPosts))
  /\ NoDup (Posts.id <$>
              snd (DELETE Number_int (mkRequest [("id", "2")] None) mockPosts)).
Proof.
  assert (Hnodup : NoDup (Posts.id <$> mockPosts))
    by (apply (bool_decide_unpack _); vm_compute; exact I).
  split.
  - apply (PUT_DELETE_keep_ids_distinct Number_int
             (mkRequest [("id", "2")]
                (Some (JObject {[ "title" := JString "Edited";
                                  "content" := JString "Edited content" ]})))
             mockPosts Hnodup).
  - apply (PUT_DELETE_keep_ids_distinct Number_int
             (mkRequest [("id", "2")] None) mockPosts Hnodup).
Defined.

Lemma DELETE_twice_witness :
  (exists id,
      searchParams_get [("id", "2")] "id" = Some id
      /\ Forall (fun q => Number_int id <> Some (Posts.id q))
           [mkPost 1 "First Post" "This is the first post content";
            mkPost 3 "Third Post" "This is the third post content"])
  /\ DELETE Number_int (mkRequest [("id", "2")] None)
       [mkPost 1 "First Post" "This is the first post content";
        mkPost 3 "Third Post" "This is the third post content"]
     = (mkResponse 404 (Failure "Post not found" NoDetails),
        [mkPost 1 "First Post" "This is the first post content";
         mkPost 3 "Third Post" "This is the third post content"]).
Proof.
  apply (DELETE_twice Number_int (mkRequest [("id", "2")] None) mockPosts
           (mkResponse 200
              (Success
                 (OnePost (mkPost 2 "Second Post"
                             "This is the second post content"))
                 "Post deleted successfully"))).
  - apply (bool_decide_unpack _). vm_compute. exact I.
  - vm_compute. reflexivity.
  - reflexivity.
Defined.

Lemma POST_then_DELETE_witness :
  exists newPost,
    Success (OnePost (mkPost 4 "Fourth Post" "This is the fourth"))
      "Post created successfully"
    = Success (OnePost newPost) "Post created successfully"
    /\ DELETE Number_int (mkRequest [("id", "4")] None)
         (mockPosts ++ [mkPost 4 "Fourth Post" "This is the fourth"])
       = (mkResponse 200
            (Success (OnePost newPost) "Post deleted successfully"),
          mockPosts).
Proof.
  apply (POST_then_DELETE Number_int
           (mkRequest []
              (Some (JObject {[ "title" := JString "Fourth Post";
                                "content" := JString "This is the fourth" ]})))
           (mkRequest [("id", "4")] None)
           mockPosts
           (mkResponse 201
              (Success (OnePost (mkPost 4 "Fourth Post" "This is the fourth"))
                 "Post created successfully"))
           (mockPosts ++ [mkPost 4 "Fourth Post" "This is the fourth"])
           "4").
  - vm_compute. reflexivity.
  - reflexivity.
  - reflexivity.
  - discriminate.
  - reflexivity.
  - repeat constructor; discriminate.
Defined.

End PostsMoreWitnesses.

(** ** Searching posts *)

Section TransitionFacts.
Import Transition.

Lemma append_cons a s t : String a s +:+ t = String a (s +:+ t).
Proof. reflexivity. Qed.

Lemma append_assoc s t u : (s +:+ t) +:+ u = s +:+ (t +:+ u).
Proof.
  induction s as [|a s IH]; [reflexivity|].
  by rewrite !append_cons, IH.
Qed.

Lemma prefix_spec p s :
  String.prefix p s = true <-> exists r, s = p +:+ r.
Proof.
  revert s. induction p as [|a p IH]; intros s.
  - split; [intros _; by exists s | intros _; by destruct s].
  - destruct s as [|b s]; cbn [String.prefix].
    + split; [discriminate | intros [r [=]]].
    + destruct (ascii_dec a b) as [<- | Hne].
      * rewrite IH. split.
        -- intros [r ->]. by exists r.
        -- intros [r Hr]. rewrite append_cons in Hr.
           injection Hr as ->. by exists r.
      * split; [discriminate|].
        intros [r Hr]. rewrite append_cons in Hr. by injection Hr as <-.
Qed.

(** [includes s t] holds exactly when [t] occurs inside [s]. *)
Lemma includes_spec s t :
  includes s t = true <-> exists a b, s = a +:+ t +:+ b.
Proof.
  induction s as [|c s IH]; cbn [includes].
  - rewrite orb_false_r, prefix_spec. split.
    + intros [r ->]. by exists "", r.
    + intros ([|a0 a] & b & Heq); [by exists b|].
      rewrite append_cons in Heq. discriminate.
  - rewrite orb_true_iff, prefix_spec, IH. split.
    + intros [[r ->] | (a & b & ->)].
      * by exists "", r.
      * exists (String c a), b. by rewrite append_cons.
    + intros ([|a0 a] & b & Heq).
      * left. by exists b.
      * right. rewrite append_cons in Heq. injection Heq as <- ->.
        by exists a, b.
Qed.

Lemma includes_trans s t u :
  includes s t = true -> includes t u = true -> includes s u = true.
Proof.
  rewrite !includes_spec. intros (a & b & ->) (a' & b' & ->).
  exists (a +:+ a'), (b' +:+ b). by rewrite !append_assoc.
Qed.

Lemma toLowerCase_app s t :
  toLowerCase (s +:+ t) = toLowerCase s +:+ toLowerCase t.
Proof.
  induction s as [|a s IH]; [reflexivity|].
  rewrite append_cons. cbn [toLowerCase]. by rewrite IH, append_cons.
Qed.

Lemma includes_toLowerCase s t :
  includes s t = true -> includes (toLowerCase s) (toLowerCase t) = true.
Proof.
  rewrite !includes_spec. intros (a & b & ->).
  exists (toLowerCase a), (toLowerCase b). by rewrite !toLowerCase_app.
Qed.

Lemma lower_idemp c : lower (lower c) = lower c.
Proof. destruct c as [[] [] [] [] [] [] [] []]; reflexivity. Qed.

Lemma toLowerCase_idemp s : toLowerCase (toLowerCase s) = toLowerCase s.
Proof.
  induction s as [|a s IH]; [reflexivity|].
  cbn [toLowerCase]. by rewrite lower_idemp, IH.
Qed.

(** A filter by a stronger test keeps a sublist of what a weaker one
    keeps. *)
Lemma filter_sublist {A} (p q : A -> bool) l :
  (forall x, p x = true -> q x = true) ->
  List.filter p l `sublist_of` List.filter q l.
Proof.
  intros Hpq. induction l as [|x l IH]; cbn; [constructor|].
  destruct (p x) eqn:Hp.
  - rewrite (Hpq x Hp). by constructor.
  - destruct (q x); [by constructor | exact IH].
Qed.

(** X15.  The empty search term finds every post, and the search does not
    depend on the case of the term: a term and its lower-case form find the
    same posts. *)
Theorem fetchPosts_empty_and_case searchTerm :
  fetchPostsWithDelay "" = mockPosts
  /\ fetchPostsWithDelay (toLowerCase searchTerm)
     = fetchPostsWithDelay searchTerm.
Proof.
  split; [reflexivity|].
  unfold fetchPostsWithDelay. by rewrite toLowerCase_idemp.
Qed.

(** X16.  Lengthening the search term narrows the result: when a term
    occurs, up to case, inside a longer one, every post found for the
    longer term is found for the shorter one, in the same order; and what
    is found is always a selection of the stored posts in their order. *)
Theorem fetchPosts_narrows shorter longer :
  includes (toLowerCase longer) (toLowerCase shorter) = true ->
  fetchPostsWithDelay longer `sublist_of` fetchPostsWithDelay shorter
  /\ fetchPostsWithDelay shorter `sublist_of` mockPosts.
Proof.
  intros Hin. split.
  - unfold fetchPostsWithDelay. apply filter_sublist.
    intros post Hmatch.
    apply orb_true_iff in Hmatch as [H | H]; apply orb_true_iff;
      [left | right]; by eapply includes_trans.
  - unfold fetchPostsWithDelay.
    replace mockPosts with (List.filter (fun _ => true) mockPosts) at 2
      by reflexivity.
    by apply filter_sublist.
Qed.

Lemma fetchPosts_narrows_witness :
  fetchPostsWithDelay "React Hooks" `sublist_of` fetchPostsWithDelay "REACT"
  /\ fetchPostsWithDelay "REACT" `sublist_of` mockPosts.
Proof.
  apply (fetchPosts_narrows "REACT" "React Hooks"). reflexivity.
Defined.

End TransitionFacts.

(** ** Validation of forms *)

Section ValidationFacts.
Import Validation.

Lemma z_string_Some lo hi value s :
  z_string lo hi value = Some s
  <-> value = Some (VString s) /\ lo <= String.length s <= hi.
Proof.
  unfold z_string. split.
  - destruct value as [[| | | |s'| | |]|]; try discriminate.
    destruct (Nat.leb_spec lo (String.length s'));
      destruct (Nat.leb_spec (String.length s') hi); try discriminate.
    intros [= ->]. split; [reflexivity | lia].
  - intros [-> [Hlo Hhi]].
    destruct (Nat.leb_spec lo (String.length s)); [|lia].
    destruct (Nat.leb_spec (String.length s) hi); [reflexivity | lia].
Qed.

Lemma z_strings_Some items tags :
  z_strings items = Some tags <-> items = VString <$> tags.
Proof.
  revert tags. induction items as [|v items IH]; intros tags; cbn.
  - split; [intros [= <-]; reflexivity | by destruct tags].
  - destruct v as [| | | |s| | |];
      try (split; [discriminate | by destruct tags]).
    destruct (z_strings items) as [l|].
    + split.
      * intros [= <-]. cbn. f_equal. by apply IH.
      * destruct tags as [|t tags]; [discriminate|].
        intros [= -> Hrest]. apply IH in Hrest. by injection Hrest as ->.
    + split; [discriminate|].
      destruct tags as [|t tags]; [discriminate|].
      intros [= -> Hrest]. apply IH in Hrest. discriminate.
Qed.

Lemma z_tags_Some value tags :
  z_tags value = Some tags
  <-> value = Some (VArray (VString <$> tags))
      /\ 1 <= length tags <= 5
      /\ Forall (fun tag => String.length tag <= 20) tags.
Proof.
  unfold z_tags. split.
  - destruct value as [[| | | | | |items|]|]; try discriminate.
    destruct (z_strings items) as [l|] eqn:Hl; [|discriminate].
    apply z_strings_Some in Hl as ->.
    destruct (Nat.leb_spec 1 (length l)); cbn [andb]; [|discriminate].
    destruct (Nat.leb_spec (length l) 5); cbn [andb]; [|discriminate].
    destruct (forallb _ l) eqn:Hall; [|discriminate].
    intros [= <-]. split; [reflexivity|]. split; [lia|].
    apply Forall_forall. intros tag Htag.
    apply list_elem_of_In in Htag.
    rewrite forallb_forall in Hall. by apply Nat.leb_le, Hall.
  - intros (-> & [Hlo Hhi] & Hall).
    rewrite (proj2 (z_strings_Some _ tags) eq_refl).
    destruct (Nat.leb_spec 1 (length tags)); [|lia].
    destruct (Nat.leb_spec (length tags) 5); [|lia]. cbn [andb].
    assert (forallb (fun tag => Nat.leb (String.length tag) 20) tags = true)
      as ->; [|reflexivity].
    apply forallb_forall. intros tag Htag. apply Nat.leb_le.
    apply list_elem_of_In in Htag.
    by apply (proj1 (Forall_forall _ _) Hall).
Qed.

(** The schema of the form accepts exactly the objects with a title of 5
    to 100 characters, a content of 10 to 1000, and 1 to 5 tags of at most
    20 characters each. *)
Lemma postSchema_parse_Some data validated :
  postSchema_parse data = Some validated
  <-> exists fields,
        data = VObject fields
        /\ fields !! "title" = Some (VString (post_title validated))
        /\ 5 <= String.length (post_title validated) <= 100
        /\ fields !! "content" = Some (VString (post_content validated))
        /\ 10 <= String.length (post_content validated) <= 1000
        /\ fields !! "tags"
           = Some (VArray (VString <$> post_tags validated))
        /\ 1 <= length (post_tags validated) <= 5
        /\ Forall (fun tag => String.length tag <= 20)
             (post_tags validated).
Proof.
  split.
  - destruct data as [| | | | | | |fields]; try discriminate. cbn.
    destruct (z_string 5 100 _) as [t|] eqn:Ht; [|discriminate].
    destruct (z_string 10 1000 _) as [c|] eqn:Hc; [|discriminate].
    destruct (z_tags _) as [tags|] eqn:Htags; [|discriminate].
    intros [= <-]. cbn.
    apply z_string_Some in Ht as [Ht ?], Hc as [Hc ?].
    apply z_tags_Some in Htags as (Htags & ? & ?).
    exists fields. done.
  - intros (fields & -> & Ht & Hlt & Hc & Hlc & Htags & Hn & Hall). cbn.
    rewrite (proj2 (z_string_Some 5 100 _ _) (conj Ht Hlt)).
    rewrite (proj2 (z_string_Some 10 1000 _ _) (conj Hc Hlc)).
    rewrite (proj2 (z_tags_Some _ _) (conj Htags (conj Hn Hall))).
    by destruct validated.
Qed.

Lemma get_VString formData name s :
  get formData name = VString s
  <-> Cache.FormData_get formData name = Some (Cache.FormString s).
Proof.
  unfold get. destruct (Cache.FormData_get formData name) as [[s'|]|]; cbn.
  - split; by intros [= ->].
  - split; discriminate.
  - split; discriminate.
Qed.

Lemma entry_values_VString (entries : list Cache.FormDataEntryValue) tags :
  entry_value <$> entries = VString <$> tags
  <-> entries = Cache.FormString <$> tags.
Proof.
  revert tags. induction entries as [|e entries IH]; intros [|t tags]; cbn;
    try (split; [discriminate | discriminate]); [done|].
  split.
  - intros [= He Hrest]. apply IH in Hrest as ->.
    destruct e; [|discriminate]. by injection He as ->.
  - intros [= -> ->]. cbn. f_equal. by apply IH.
Qed.

(** The entries named 'tags' of a form. *)
Lemma getAll_VString formData tags :
  getAll formData "tags" = VString <$> tags
  <-> snd <$> List.filter (fun kv => bool_decide (fst kv = "tags")) formData
      = Cache.FormString <$> tags.
Proof.
  unfold getAll. rewrite list_fmap_compose. apply entry_values_VString.
Qed.

Lemma VString_fmap_inj (l1 l2 : list string) :
  VString <$> l1 = VString <$> l2 -> l1 = l2.
Proof.
  revert l2. induction l1 as [|x l1 IH]; intros [|y l2]; cbn;
    try discriminate; [done|].
  intros [= -> Hrest]. f_equal. by apply IH.
Qed.

Lemma rawPost_lookup (a b c : Value) :
  let fields : gmap string Value :=
    {[ "title" := a; "content" := b; "tags" := c ]} in
  fields !! "title" = Some a
  /\ fields !! "content" = Some b
  /\ fields !! "tags" = Some c.
Proof. repeat split; reflexivity. Qed.

Lemma validatePostServer_success formData validated :
  validatePostServer formData = mkServerResult true (Some validated) None
  <-> Cache.FormData_get formData "title"
      = Some (Cache.FormString (post_title validated))
      /\ 5 <= String.length (post_title validated) <= 100
      /\ Cache.FormData_get formData "content"
         = Some (Cache.FormString (post_content validated))
      /\ 10 <= String.length (post_content validated) <= 1000
      /\ snd <$> List.filter (fun kv => bool_decide (fst kv = "tags"))
                   formData
         = Cache.FormString <$> post_tags validated
      /\ 1 <= length (post_tags validated) <= 5
      /\ Forall (fun tag => String.length tag <= 20) (post_tags validated).
Proof.
  unfold validatePostServer, validatePost.
  rewrite <- !get_VString, <- getAll_VString.
  destruct (postSchema_parse _) as [v|] eqn:Hparse.
  - apply postSchema_parse_Some in Hparse
      as (fields & [= <-] & Ht & Hlt & Hc & Hlc & Htags & Hn & Hall).
    destruct (rawPost_lookup (get formData "title")
                (get formData "content") (VArray (getAll formData "tags")))
      as (Lt & Lc & Ltags).
    rewrite Lt in Ht. rewrite Lc in Hc. rewrite Ltags in Htags.
    injection Ht as Ht. injection Hc as Hc. injection Htags as Htags.
    split.
    + intros [= <-]. done.
    + intros (Ht' & _ & Hc' & _ & Htags' & _).
      rewrite Ht' in Ht. rewrite Hc' in Hc. rewrite Htags' in Htags.
      injection Ht as Ht. injection Hc as Hc.
      apply VString_fmap_inj in Htags.
      destruct v, validated; cbn in *. by subst.
  - split; [discriminate|].
    intros (Ht & Hlt & Hc & Hlc & Htags & Hn & Hall). exfalso.
    assert (postSchema_parse
              (VObject {[ "title" := get formData "title";
                          "content" := get formData "content";
                          "tags" := VArray (getAll formData "tags") ]})
            = Some validated) as Hok; [|by rewrite Hok in Hparse].
    apply postSchema_parse_Some. eexists. split; [reflexivity|].
    destruct (rawPost_lookup (get formData "title")
                (get formData "content") (VArray (getAll formData "tags")))
      as (-> & -> & ->).
    rewrite Ht, Hc, Htags. done.
Qed.

(** X17.  [validatePostServer] succeeds exactly on a form whose 'title'
    entry is a string of 5 to 100 characters, whose 'content' entry is a
    string of 10 to 1000 characters, and whose 'tags' entries are 1 to 5
    strings of at most 20 characters each; the data it returns are those
    strings.  A missing entry or a file in their place makes it fail, and a
    failure carries the error and no data. *)
Theorem validatePostServer_spec formData :
  (forall validated,
      validatePostServer formData = mkServerResult true (Some validated) None
      <-> Cache.FormData_get formData "title"
          = Some (Cache.FormString (post_title validated))
          /\ 5 <= String.length (post_title validated) <= 100
          /\ Cache.FormData_get formData "content"
             = Some (Cache.FormString (post_content validated))
          /\ 10 <= String.length (post_content validated) <= 1000
          /\ snd <$> List.filter (fun kv => bool_decide (fst kv = "tags"))
                       formData
             = Cache.FormString <$> post_tags validated
          /\ 1 <= length (post_tags validated) <= 5
          /\ Forall (fun tag => String.length tag <= 20)
               (post_tags validated))
  /\ ((exists validated,
         validatePostServer formData
         = mkServerResult true (Some validated) None)
      \/ validatePostServer formData
         = mkServerResult false None (Some issue_report)).
Proof.
  split; [intros validated; apply validatePostServer_success|].
  unfold validatePostServer, validatePost.
  destruct (postSchema_parse _) as [v|]; [left; by exists v | by right].
Qed.

(** *** The tag editor *)

Lemma filter_index_past i index tags :
  index < i -> filter_index i index tags = tags.
Proof.
  revert i. induction tags as [|tag rest IH]; intros i Hlt; cbn;
    [reflexivity|].
  destruct (Nat.eqb_spec i index); [lia|]. f_equal. apply IH. lia.
Qed.

(** Filtering out one position is removing the element at it. *)
Lemma filter_index_delete i k tags :
  filter_index i (i + k) tags = delete k tags.
Proof.
  revert i k. induction tags as [|tag rest IH]; intros i k; cbn;
    [reflexivity|].
  destruct k as [|k].
  - rewrite Nat.add_0_r, Nat.eqb_refl. apply filter_index_past. lia.
  - destruct (Nat.eqb_spec i (i + S k)); [lia|]. cbn. f_equal.
    replace (i + S k) with (S i + k) by lia. apply IH.
Qed.

Lemma length_delete_bounds (tags : list string) index :
  length tags - 1 <= length (delete index tags) <= length tags.
Proof.
  pose proof (sublist_length _ _ (sublist_delete tags index)) as Hle.
  destruct (decide (index < length tags)) as [Hlt | Hge].
  - rewrite length_delete by by apply lookup_lt_is_Some_2. lia.
  - split; [|exact Hle].
    assert (delete index tags = tags) as ->; [|lia].
    clear Hle. revert index Hge.
    induction tags as [|tag rest IH]; intros [|index] Hge; cbn in *;
      try reflexivity; try lia.
    f_equal. apply IH. lia.
Qed.

Lemma edit_bounds tags e :
  1 <= length tags <= 5 -> 1 <= length (edit tags e) <= 5.
Proof.
  intros Hb. destruct e as [|index]; cbn.
  - unfold addTag. destruct (Nat.ltb_spec (length tags) 5); [|lia].
    rewrite length_app. cbn. lia.
  - unfold removeTag. destruct (Nat.ltb_spec 1 (length tags)); [|lia].
    rewrite (filter_index_delete 0 index).
    pose proof (length_delete_bounds tags index). lia.
Qed.

(** X18.  The tag editor keeps the number of tags between 1 and 5: from a
    list within these bounds (the form starts with one empty tag), any
    sequence of [addTag] and [removeTag] leaves a list within them.
    [removeTag] removes the tag at the given position when there is more
    than one tag, and [addTag] appends an empty tag when there are fewer
    than five. *)
Theorem tag_editor_bounds edits tags :
  1 <= length tags <= 5 ->
  1 <= length (fold_left edit edits tags) <= 5
  /\ (forall index,
        removeTag index tags
        = if Nat.ltb 1 (length tags) then delete index tags else tags)
  /\ (length tags < 5 -> addTag tags = tags ++ [""])
  /\ (length tags = 5 -> addTag tags = tags).
Proof.
  intros Hb. split; [|split; [|split]].
  - revert tags Hb. induction edits as [|e edits IH]; intros tags Hb;
      [exact Hb|].
    cbn [fold_left]. apply IH. by apply edit_bounds.
  - intros index. unfold removeTag.
    by rewrite (filter_index_delete 0 index).
  - intros Hlt. unfold addTag.
    by destruct (Nat.ltb_spec (length tags) 5); [|lia].
  - intros Heq. unfold addTag.
    by destruct (Nat.ltb_spec (length tags) 5); [lia|].
Qed.

Lemma tag_editor_bounds_witness :
  1 <= length (fold_left edit
                 [AddTag; AddTag; RemoveTag 0; RemoveTag 7; AddTag] [""])
    <= 5
  /\ (forall index,
        removeTag index [""]
        = if Nat.ltb 1 (length [""]) then delete index [""] else [""])
  /\ (length [""] < 5 -> addTag [""] = [""] ++ [""])
  /\ (length [""] = 5 -> addTag [""] = [""]).
Proof.
  apply (tag_editor_bounds
           [AddTag; AddTag; RemoveTag 0; RemoveTag 7; AddTag] [""]).
  cbn. lia.
Defined.

(** *** Submitting the post form *)

Lemma post_formData_tags title content tags :
  snd <$> List.filter (fun kv => bool_decide (fst kv = "tags"))
            (post_formData title content tags)
  = Cache.FormString <$> tags.
Proof.
  unfold post_formData. rewrite List.filter_app.
  assert (List.filter
            (fun kv : string * Cache.FormDataEntryValue =>
               bool_decide (fst kv = "tags"))
            [("title", Cache.FormString title);
             ("content", Cache.FormString content)] = []) as ->
    by reflexivity.
  rewrite app_nil_l.
  induction tags as [|tag tags IH]; [reflexivity|].
  rewrite !fmap_cons. cbn [List.filter fst].
  rewrite bool_decide_eq_true_2 by reflexivity.
  rewrite fmap_cons. cbn [snd]. by rewrite IH.
Qed.

(** X19.  Submitting the post form succeeds exactly when the title has 5
    to 100 characters, the content 10 to 1000, and there are 1 to 5 tags of
    at most 20 characters each; the data returned are the fields of the
    form.  The rule on tags counts entries, not their content: empty tags
    are accepted. *)
Theorem submitPost_spec title content tags :
  (submitPost title content tags
   = mkServerResult true (Some (mkPostForm title content tags)) None
   <-> 5 <= String.length title <= 100
       /\ 10 <= String.length content <= 1000
       /\ 1 <= length tags <= 5
       /\ Forall (fun tag => String.length tag <= 20) tags)
  /\ (forall validated,
        submitPost title content tags
        = mkServerResult true (Some validated) None ->
        validated = mkPostForm title content tags).
Proof.
  unfold submitPost. split.
  - rewrite validatePostServer_success, post_formData_tags. cbn.
    split; [intros (_ & ? & _ & ? & _ & ? & ?) | intros (? & ? & ? & ?)];
      done.
  - intros validated Hok.
    apply validatePostServer_success in Hok
      as (Ht & _ & Hc & _ & Htags & _).
    rewrite post_formData_tags in Htags.
    injection Ht as Ht. injection Hc as Hc.
    assert (Htags' : VString <$> tags = VString <$> post_tags validated).
    { rewrite <- (entry_values_VString (Cache.FormString <$> tags)
                   (post_tags validated)) in Htags.
      rewrite <- Htags, <- list_fmap_compose. reflexivity. }
    apply VString_fmap_inj in Htags'.
    destruct validated; cbn in *. by subst.
Qed.

Lemma submitPost_spec_witness :
  submitPost "Hello" "Ten chars!" [""; "news"]
  = mkServerResult true (Some (mkPostForm "Hello" "Ten chars!" [""; "news"]))
      None.
Proof.
  apply (proj1 (submitPost_spec "Hello" "Ten chars!" [""; "news"])).
  cbn. repeat split; try lia. repeat constructor; cbn; lia.
Defined.

(** X20.  What the form schema accepts, the posts route accepts: a post
    validated by [validatePost] and sent to POST /api/posts as title and
    content is created with status 201.  (The route asks for less: its
    titles start at 3 characters, those of the form at 5.) *)
Theorem validatePost_accepted_by_route data validated
    (fields : gmap string Posts.JSON) search mockPosts :
  validatePost data = Return validated ->
  fields !! "title" = Some (Posts.JString (post_title validated)) ->
  fields !! "content" = Some (Posts.JString (post_content validated)) ->
  let newPost :=
    Posts.mkPost (Z.of_nat (length mockPosts) + 1)
      (post_title validated) (post_content validated) in
  Posts.POST (Posts.mkRequest search (Some (Posts.JObject fields))) mockPosts
  = (Posts.mkResponse 201
       (Posts.Success (Posts.OnePost newPost) "Post created successfully"),
     mockPosts ++ [newPost]).
Proof.
  intros Hvalid Ht Hc newPost. unfold validatePost in Hvalid.
  destruct (postSchema_parse data) as [v|] eqn:Hparse; [|discriminate].
  injection Hvalid as ->.
  apply postSchema_parse_Some in Hparse
    as (_ & _ & _ & Hlt & _ & Hlc & _).
  unfold Posts.POST, Posts.request_json. cbn [Posts.body bindE].
  assert (Posts.postSchema_parse (Posts.JObject fields)
          = Return (Posts.mkInput (post_title validated)
                      (post_content validated))) as ->.
  { apply postSchema_parse_Return. exists fields. cbn.
    repeat split; try done; lia. }
  reflexivity.
Qed.

Lemma validatePost_accepted_by_route_witness :
  Posts.POST
    (Posts.mkRequest []
       (Some (Posts.JObject {[ "title" := Posts.JString "Hello";
                               "content" := Posts.JString "Ten chars!" ]})))
    Posts.mockPosts
  = (Posts.mkResponse 201
       (Posts.Success (Posts.OnePost (Posts.mkPost 4 "Hello" "Ten chars!"))
          "Post created successfully"),
     Posts.mockPosts ++ [Posts.mkPost 4 "Hello" "Ten chars!"]).
Proof.
  apply (validatePost_accepted_by_route
           (VObject {[ "title" := VString "Hello";
                       "content" := VString "Ten chars!";
                       "tags" := VArray [VString "news"] ]})
           (mkPostForm "Hello" "Ten chars!" ["news"])).
  - vm_compute. reflexivity.
  - reflexivity.
  - reflexivity.
Defined.

(** The converse fails: a title of four characters passes the route and
    not the form. *)
Example route_accepts_more :
  Posts.postSchema_parse
    (Posts.JObject {[ "title" := Posts.JString "Four";
                      "content" := Posts.JString "Ten chars!" ]})
  = Return (Posts.mkInput "Four" "Ten chars!")
  /\ validatePost
       (VObject {[ "title" := VString "Four";
                   "content" := VString "Ten chars!";
                   "tags" := VArray [VString "news"] ]})
     = Throw issue_report.
Proof. split; vm_compute; reflexivity. Qed.

(** *** Registration *)

Section RegistrationFacts.
Variable isEmail : string -> bool.

Lemma has_spec class s :
  has class s = true
  <-> exists c, In c (list_ascii_of_string s) /\ class c = true.
Proof. unfold has. apply existsb_exists. Qed.

Lemma z_any_string_Some value s :
  z_any_string value = Some s <-> value = Some (VString s).
Proof.
  destruct value as [[| | | |s'| | |]|]; cbn; split;
    try discriminate; by intros [= ->].
Qed.

Lemma z_name_Some value s :
  z_name value = Some s
  <-> value = Some (VString s)
      /\ 2 <= String.length s <= 50
      /\ forall ch, In ch (list_ascii_of_string s) ->
                    is_upper ch || is_lower ch || Optimistic.is_space ch
                    = true.
Proof.
  unfold z_name, letters_and_spaces. split.
  - destruct (z_string 2 50 value) as [s'|] eqn:Hs; [|discriminate].
    apply z_string_Some in Hs as [-> Hlen].
    destruct (negb _ && forallb _ _) eqn:Hre; [|discriminate].
    intros [= ->]. apply andb_true_iff in Hre as [_ Hall].
    rewrite forallb_forall in Hall. done.
  - intros (-> & Hlen & Hall).
    rewrite (proj2 (z_string_Some 2 50 _ s) (conj eq_refl Hlen)).
    rewrite bool_decide_eq_false_2 by (intros ->; cbn in Hlen; lia).
    cbn [negb andb].
    by rewrite (proj2 (forallb_forall _ _) Hall).
Qed.

Lemma z_email_Some value s :
  z_email isEmail value = Some s
  <-> value = Some (VString s)
      /\ 5 <= String.length s <= 100 /\ isEmail s = true.
Proof.
  unfold z_email. split.
  - destruct (z_string 5 100 value) as [s'|] eqn:Hs; [|discriminate].
    apply z_string_Some in Hs as [-> Hlen].
    destruct (isEmail s') eqn:He; [|discriminate]. by intros [= ->].
  - intros (-> & Hlen & He).
    by rewrite (proj2 (z_string_Some 5 100 _ s) (conj eq_refl Hlen)), He.
Qed.

Lemma z_password_Some value s :
  z_password value = Some s
  <-> value = Some (VString s)
      /\ 8 <= String.length s <= 50
      /\ (exists ch, In ch (list_ascii_of_string s) /\ is_upper ch = true)
      /\ (exists ch, In ch (list_ascii_of_string s) /\ is_lower ch = true)
      /\ (exists ch, In ch (list_ascii_of_string s) /\ is_digit ch = true)
      /\ (exists ch, In ch (list_ascii_of_string s)
                     /\ is_upper ch = false /\ is_lower ch = false
                     /\ is_digit ch = false).
Proof.
  assert (Hother : forall ch,
             negb (is_upper ch || is_lower ch || is_digit ch) = true
             <-> is_upper ch = false /\ is_lower ch = false
                 /\ is_digit ch = false).
  { intros ch. rewrite negb_true_iff, !orb_false_iff. tauto. }
  unfold z_password. split.
  - destruct (z_string 8 50 value) as [s'|] eqn:Hs; [|discriminate].
    apply z_string_Some in Hs as [-> Hlen].
    destruct (_ && _) eqn:Hre; [|discriminate].
    intros [= ->].
    rewrite !andb_true_iff, !has_spec in Hre.
    destruct Hre as [[[Hu Hl] Hd] (ch & Hin & Ho)].
    apply Hother in Ho. eauto 10.
  - intros (-> & Hlen & Hu & Hl & Hd & (ch & Hin & Ho)).
    rewrite (proj2 (z_string_Some 8 50 _ s) (conj eq_refl Hlen)).
    apply Hother in Ho.
    assert (has is_upper s && has is_lower s && has is_digit s
            && has (fun c => negb (is_upper c || is_lower c || is_digit c)) s
            = true) as ->; [|reflexivity].
    rewrite !andb_true_iff, !has_spec. eauto 10.
Qed.

Lemma rawRegistration_lookup (a b c d : Value) :
  let fields : gmap string Value :=
    {[ "name" := a; "email" := b; "password" := c;
       "confirmPassword" := d ]} in
  fields !! "name" = Some a
  /\ fields !! "email" = Some b
  /\ fields !! "password" = Some c
  /\ fields !! "confirmPassword" = Some d.
Proof. repeat split; reflexivity. Qed.

(** X21.  [validateRegistrationServer] succeeds exactly on a form whose
    'name', 'email', 'password' and 'confirmPassword' entries are strings
    such that: the name has 2 to 50 characters, all letters or white space;
    the email has 5 to 100 characters and the format of an email; the
    password has 8 to 50 characters, among them an upper-case letter, a
    lower-case letter, a digit and a character that is none of these; and
    the confirmation equals the password.  The data returned are these
    four strings. *)
Theorem validateRegistrationServer_spec formData validated :
  validateRegistrationServer isEmail formData
  = mkServerResult true (Some validated) None
  <-> Cache.FormData_get formData "name"
      = Some (Cache.FormString (reg_name validated))
      /\ Cache.FormData_get formData "email"
         = Some (Cache.FormString (reg_email validated))
      /\ Cache.FormData_get formData "password"
         = Some (Cache.FormString (reg_password validated))
      /\ Cache.FormData_get formData "confirmPassword"
         = Some (Cache.FormString (reg_confirmPassword validated))
      /\ registration_ok isEmail (reg_name validated) (reg_email validated)
           (reg_password validated) (reg_confirmPassword validated).
Proof.
  unfold validateRegistrationServer, validateRegistration,
    registerSchema_parse, registration_ok.
  rewrite <- !get_VString.
  destruct (rawRegistration_lookup (get formData "name")
              (get formData "email") (get formData "password")
              (get formData "confirmPassword")) as (-> & -> & -> & ->).
  destruct (z_name _) as [n|] eqn:Hn.
  2:{ split; [discriminate|]. intros (Hn' & _ & _ & _ & (Hok & _)).
      assert (z_name (Some (get formData "name"))
              = Some (reg_name validated)) as Hn''
        by (apply z_name_Some; rewrite Hn'; done).
      rewrite Hn in Hn''. discriminate. }
  destruct (z_email _ _) as [e|] eqn:He.
  2:{ split; [discriminate|]. intros (_ & He' & _ & _ & (_ & Hok & _)).
      assert (z_email isEmail (Some (get formData "email"))
              = Some (reg_email validated)) as He''
        by (apply z_email_Some; rewrite He'; done).
      rewrite He in He''. discriminate. }
  destruct (z_password _) as [pw|] eqn:Hp.
  2:{ split; [discriminate|]. intros (_ & _ & Hp' & _ & (_ & _ & Hok & _)).
      assert (z_password (Some (get formData "password"))
              = Some (reg_password validated)) as Hp''
        by (apply z_password_Some; rewrite Hp'; done).
      rewrite Hp in Hp''. discriminate. }
  destruct (z_any_string _) as [c|] eqn:Hc.
  2:{ split; [discriminate|]. intros (_ & _ & _ & Hc' & _).
      rewrite Hc' in Hc. discriminate. }
  apply z_name_Some in Hn as (Hn & Hnlen & Hnall).
  apply z_email_Some in He as (He & Helen & Heok).
  apply z_password_Some in Hp as (Hp & Hplen & Hpu & Hpl & Hpd & Hpo).
  apply z_any_string_Some in Hc.
  injection Hn as Hn. injection He as He. injection Hp as Hp.
  injection Hc as Hc.
  case_bool_decide as Heq.
  - split.
    + intros [= <-]. cbn. done.
    + intros (Hn' & He' & Hp' & Hc' & _).
      rewrite Hn' in Hn. rewrite He' in He. rewrite Hp' in Hp.
      rewrite Hc' in Hc.
      injection Hn as <-. injection He as <-. injection Hp as <-.
      injection Hc as <-. by destruct validated.
  - split; [discriminate|].
    intros (_ & _ & Hp' & Hc' & (_ & _ & _ & Hsame)).
    rewrite Hp' in Hp. rewrite Hc' in Hc.
    injection Hp as <-. injection Hc as <-. done.
Qed.

End RegistrationFacts.

End ValidationFacts.

(** A registration that passes, with a format test that asks for an at
    sign. *)
Example registration_accepted :
  Validation.validateRegistrationServer
    (fun s => Transition.includes s "@")
    [("name", Cache.FormString "Ada Lovelace");
     ("email", Cache.FormString "ada@example.org");
     ("password", Cache.FormString "Engine#1843");
     ("confirmPassword", Cache.FormString "Engine#1843")]
  = Validation.mkServerResult true
      (Some (Validation.mkRegister "Ada Lovelace" "ada@example.org"
               "Engine#1843" "Engine#1843"))
      None.
Proof. vm_compute. reflexivity. Qed.

(** ** More on the optimistic page *)

Section OptimisticMoreFacts.
Import Optimistic.

(** X22.  [handleSubmit] does nothing at all when the title or the content
    is blank (empty or white space only).  Otherwise the form is reset and
    the submission flag cleared; when the server call succeeds the
    confirmed list gains one post, numbered with the length plus one and
    carrying the submitted title and content, and no error is shown; when
    it fails the list is unchanged and the error of the call is shown. *)
Theorem handleSubmit_spec now random st mockPosts :
  (blank (form_title st) = true \/ blank (form_content st) = true ->
   handleSubmit now random st mockPosts = (st, mockPosts))
  /\ (blank (form_title st) = false ->
      blank (form_content st) = false ->
      (2 # 10 <= random)%Q ->
      handleSubmit now random st mockPosts
      = (mkState "" "" false None (pending st),
         mockPosts
         ++ [mkStored (Z.of_nat (length mockPosts) + 1)
               (form_title st) (form_content st)]))
  /\ (blank (form_title st) = false ->
      blank (form_content st) = false ->
      (random < 2 # 10)%Q ->
      handleSubmit now random st mockPosts
      = (mkState "" "" false
           (Some "Failed to save post. Please try again.") (pending st),
         mockPosts)).
Proof.
  unfold handleSubmit, handleSubmit_begin. split; [|split].
  - intros [-> | ->]; [reflexivity | by rewrite orb_true_r].
  - intros -> -> Hok. cbn [orb].
    unfold handleSubmit_settle, addPost. cbn [form_title form_content].
    destruct (Qlt_le_dec random (2 # 10)) as [Hlt | _].
    + exfalso. by apply (Qlt_not_le _ _ Hlt).
    + cbn. by rewrite removelast_last.
  - intros -> -> Hfail. cbn [orb].
    unfold handleSubmit_settle, addPost. cbn [form_title form_content].
    destruct (Qlt_le_dec random (2 # 10)) as [_ | Hle].
    + cbn. by rewrite removelast_last.
    + exfalso. by apply (Qlt_not_le _ _ Hfail).
Qed.

Lemma handleSubmit_spec_witness :
  handleSubmit 1700000000000 (1 # 2)
    (mkState "Draft" "Some words" false None []) mockPosts
  = (mkState "" "" false None [],
     mockPosts ++ [mkStored 4 "Draft" "Some words"])
  /\ handleSubmit 1700000000000 (1 # 2)
       (mkState "   " "Some words" false None []) mockPosts
     = (mkState "   " "Some words" false None [], mockPosts).
Proof.
  split.
  - apply (proj1 (proj2 (handleSubmit_spec 1700000000000 (1 # 2)
                           (mkState "Draft" "Some words" false None [])
                           mockPosts))).
    + reflexivity.
    + reflexivity.
    + unfold Qle. cbn. lia.
  - apply (proj1 (handleSubmit_spec 1700000000000 (1 # 2)
                    (mkState "   " "Some words" false None [])
                    mockPosts)).
    left. reflexivity.
Defined.

(** The ids are 1, 2, ..., in this order. *)
Lemma addPost_keeps_numbering random newPost posts :
  stored_id <$> posts = Z.of_nat <$> seq 1 (length posts) ->
  let posts' := snd (addPost random newPost posts) in
  stored_id <$> posts' = Z.of_nat <$> seq 1 (length posts').
Proof.
  intros Hids. unfold addPost.
  destruct (Qlt_le_dec random (2 # 10)); cbn [snd]; [exact Hids|].
  rewrite length_app. cbn [length].
  rewrite Nat.add_1_r, seq_S, !fmap_app, Hids. cbn.
  do 2 f_equal. lia.
Qed.

(** X23.  On the optimistic page two posts never share an id: after any
    sequence of calls of [addPost] from the initial list, succeeding or
    failing, the ids of the stored posts are 1, 2, ..., up to their number,
    in this order, hence distinct. *)
Theorem addPost_ids_distinct calls :
  let posts := OptimisticCalls.run calls mockPosts in
  stored_id <$> posts = Z.of_nat <$> seq 1 (length posts)
  /\ NoDup (stored_id <$> posts).
Proof.
  intros posts.
  assert (Hids : stored_id <$> posts = Z.of_nat <$> seq 1 (length posts)).
  { subst posts. unfold OptimisticCalls.run.
    assert (Hinit : stored_id <$> mockPosts
                    = Z.of_nat <$> seq 1 (length mockPosts)) by reflexivity.
    revert Hinit. generalize mockPosts.
    induction calls as [|[random newPost] calls IH]; intros l Hl;
      [exact Hl|].
    cbn [fold_left fst snd]. apply IH.
    by apply addPost_keeps_numbering. }
  split; [exact Hids|].
  rewrite Hids. apply NoDup_fmap; [apply _|]. apply NoDup_ListNoDup, seq_NoDup.
Qed.

End OptimisticMoreFacts.

(** ** The mock user table *)

Section FindUserFacts.
Import Jwt.

(** X24.  [findUser] returns a user exactly when that user is in the mock
    table with exactly the given name and the given password (both compared
    as they are, case included); since no two mock users share a name, the
    user found is the only one with these credentials. *)
Theorem findUser_spec username password user :
  findUser username password = Some user
  <-> user ∈ mockUsers
      /\ Jwt.username user = username
      /\ Jwt.password user = password.
Proof.
  split; [apply findUser_Some|].
  intros (Hin & <- & <-). by apply findUser_mock.
Qed.

End FindUserFacts.
